(** * rec_dataset: region alignment and packing for referring expressions

    A shallow embedding of [src/model/rec_dataset.py]: the box-overlap
    function [iou], the caption packing of [ReferExpressionDataset.tokenize]
    and the per-index fetch [ReferExpressionDataset.__getitem__].

    Modelling conventions.
    - Float values are rationals ([Q]); [fnum] adds the IEEE special
      values.  The embedding comes in two layers.  [overlap], [merge],
      [pack] and [getitem] compute exactly: they carry the statements that
      rounding cannot change (shapes, counts, order, masks, exceptions, the
      zero overlap of boxes a pixel apart).  [overlap_with], [merge_with],
      [pack_with] and [getitem_with] are the same source lines over an
      arithmetic left open ([arith]): they carry the statements about
      label values.  [exact] instantiates the second layer to the first,
      and [IEEE.numpy] to the float32/float64 arithmetic of NumPy.
    - An array is the list of its rows.  The column widths (4, 5, 2048) are
      fixed by the interface of the region-feature store.
    - Python exceptions are values of [exn], threaded by the [result] monad.
    - Python integers are [Z]; sizes handed to [np.zeros] are [nat].
      [max_seq_length] is a [nat] in the dataset record; [tokenize_int]
      follows [tokenize] for any integer, negative ones included. *)

From Stdlib Require Import QArith Qminmax Lqa ZArith Lia.
From Stdlib Require Import SpecFloat.
From stdpp Require Import base option list strings gmap.

Local Open Scope Z_scope.

(** ** Python and NumPy primitives *)

Module Py.

Inductive exn : Type :=
| AssertionError
| ValueError      (* NumPy/Paddle: shapes cannot be broadcast together *)
| KeyError
| IndexError.

Inductive result (A : Type) : Type :=
| Ok (a : A)
| Raise (e : exn).
Arguments Ok {A} a.
Arguments Raise {A} e.

Definition bind {A B} (m : result A) (f : A -> result B) : result B :=
  match m with
  | Ok a => f a
  | Raise e => Raise e
  end.

(** [l[:stop]] *)
Definition slice_to {A} (l : list A) (stop : Z) : list A :=
  if (0 <=? stop)%Z then take (Z.to_nat stop) l
  else take (length l - Z.to_nat (- stop))%nat l.

(** [l[1:stop]] *)
Definition slice_1_to {A} (l : list A) (stop : Z) : list A :=
  drop 1 (slice_to l stop).

(** [l[index]] on a Python list *)
Definition index {A} (l : list A) (i : Z) : result A :=
  let n := Z.of_nat (length l) in
  let j := if (i <? 0)%Z then (n + i)%Z else i in
  if ((0 <=? j) && (j <? n))%Z then
    match l !! Z.to_nat j with
    | Some a => Ok a
    | None => Raise IndexError
    end
  else Raise IndexError.

(** [dst[:stop] = src] on arrays whose trailing dimensions agree: the
    rows of [src] replace the selected rows when there are as many of
    them; a single row is broadcast to every selected row; any other row
    count is a shape error. *)
Definition assign_to {A} (dst : list A) (stop : Z) (src : list A)
  : result (list A) :=
  let n := length (slice_to dst stop) in
  if decide (length src = n) then Ok (src ++ drop n dst)
  else match src with
       | [x] => Ok (replicate n x ++ drop n dst)
       | _ => Raise ValueError
       end.

(** [assert real == expected] *)
Definition assert_eq (real expected : nat) : result unit :=
  if decide (real = expected) then Ok tt else Raise AssertionError.

End Py.

Import Py.

#[global] Instance result_ret : MRet result := @Ok.
#[global] Instance result_bind : MBind result := fun A B f m => Py.bind m f.

(** ** Floating-point results of a division *)

Inductive fnum : Type :=
| Fin (q : Q)
| PInf
| NInf
| NaN.

Definition Qltb (x y : Q) : bool :=
  match (x ?= y)%Q with Lt => true | _ => false end.

(** [n / d] on floats: a zero divisor gives [nan] for [0/0] and an
    infinity otherwise. *)
Definition fdiv (n d : Q) : fnum :=
  if Qeq_bool d 0 then
    (if Qeq_bool n 0 then NaN else if Qltb n 0 then NInf else PInf)
  else Fin (n / d).

(** [v < x] on floats: every comparison with [nan] is false. *)
Definition flt (v : fnum) (x : Q) : bool :=
  match v with
  | Fin q => Qltb q x
  | NInf => true
  | PInf | NaN => false
  end.

(** ** The overlap engine: [iou] *)

(** A row of an [(N, 4)] box array: columns 0..3. *)
Record box : Type := Box { x_min : Q; y_min : Q; x_max : Q; y_max : Q }.

Local Open Scope Q_scope.

(** [(b[2] - b[0] + 1) * (b[3] - b[1] + 1)] *)
Definition area (b : box) : Q :=
  (x_max b - x_min b + 1) * (y_max b - y_min b + 1).

(** [w[w < 0] = 0] *)
Definition clip (w : Q) : Q := if Qltb w 0 then 0 else w.

Definition iw (a g : box) : Q :=
  clip (Qmin (x_max a) (x_max g) - Qmax (x_min a) (x_min g) + 1).

Definition ih (a g : box) : Q :=
  clip (Qmin (y_max a) (y_max g) - Qmax (y_min a) (y_min g) + 1).

Definition ua (a g : box) : Q := area a + area g - iw a g * ih a g.

Definition overlap (a g : box) : fnum := fdiv (iw a g * ih a g) (ua a g).

(** The [(N, K)] matrix of overlaps. *)
Definition iou (anchors gt_boxes : list box) : list (list fnum) :=
  map (fun a => map (fun g => overlap a g) gt_boxes) anchors.

Local Close Scope Q_scope.

(** ** The dataset *)

(** What a region-feature store returns for an image id:
    [(features, num_boxes, boxes, boxes_ori)]. *)
Record regions : Type := Regions {
  r_features : list (list Q);   (* M x 2048 *)
  r_num_boxes : Z;
  r_boxes : list (list Q);      (* M x 5 *)
  r_boxes_ori : list box        (* M x 4 *)
}.

(** An entry as [_load_annotations] builds it. *)
Record annotation : Type := Annotation {
  a_caption : string;
  a_sent_id : Z;
  a_image_id : Z;
  a_refBox : Q * Q * Q * Q;     (* x, y, w, h *)
  a_ref_id : Z
}.

(** An entry once [tokenize] has added its three keys. *)
Record entry : Type := Entry {
  caption : string;
  sent_id : Z;
  image_id : Z;
  refBox : Q * Q * Q * Q;
  ref_id : Z;
  token : list Z;
  input_mask : list Z;
  segment_ids : list Z
}.

Record ReferExpressionDataset : Type := Dataset {
  split : string;
  _image_features_reader : gmap Z regions;
  _gt_image_features_reader : gmap Z regions;
  _tokenizer : string -> list string;
  _vocab : gmap string Z;
  _padding_index : Z;
  _max_seq_length : nat;
  max_region_num : nat;
  entries : list entry
}.

(** The 9-tuple returned by the per-index fetch. *)
Record example : Type := Example {
  features : list (list Q);
  spatials : list (list Q);
  image_mask : list Q;
  ex_caption : list Z;
  target : list (list fnum);
  ex_input_mask : list Z;
  ex_segment_ids : list Z;
  co_attention_mask : list (list Q);
  ex_image_id : Z
}.

(** [reader[image_id]].  The reader class is not part of this file: the
    store is taken as a finite map, and [KeyError] stands for whatever the
    failed lookup of the reader raises. *)
Definition reader_get (reader : gmap Z regions) (id : Z) : result regions :=
  match reader !! id with
  | Some r => Ok r
  | None => Raise KeyError
  end.

(** *** [tokenize] *)

(** [vocab[w] if vocab.__contains__(w) else vocab["[UNK]"]] *)
Definition vocab_id (vocab : gmap string Z) (w : string) : result Z :=
  match vocab !! w with
  | Some i => Ok i
  | None =>
      match vocab !! "[UNK]"%string with
      | Some u => Ok u
      | None => Raise KeyError
      end
  end.

(** Lines 133-143: truncation and padding of the three vectors. *)
Definition pack_tokens (max_seq_length : nat) (padding_index : Z)
    (ids : list Z) : list Z * list Z * list Z :=
  let tokens := take max_seq_length ids in
  let segment_ids := replicate (length tokens) 0%Z in
  let input_mask := replicate (length tokens) 1%Z in
  if decide (length tokens < max_seq_length)%nat then
    let padding := replicate (max_seq_length - length tokens) padding_index in
    (tokens ++ padding, input_mask ++ padding, segment_ids ++ padding)
  else (tokens, input_mask, segment_ids).

(** Lines 144-147: the length check, then the three keys are stored. *)
Definition store_tokens (max_seq_length : nat) (a : annotation)
    (packed : list Z * list Z * list Z) : result entry :=
  let '(tokens, input_mask, segment_ids) := packed in
  _ ← assert_eq (length tokens) max_seq_length;
  Ok (Entry (a_caption a) (a_sent_id a) (a_image_id a) (a_refBox a)
        (a_ref_id a) tokens input_mask segment_ids).

(** The body of the loop of [tokenize]. *)
Definition tokenize_entry (self : ReferExpressionDataset) (a : annotation)
    : result entry :=
  let sentence_tokens := _tokenizer self (a_caption a) in
  let sentence_tokens :=
    ["[CLS]"%string] ++ sentence_tokens ++ ["[SEP]"%string] in
  tokens ← mapM (vocab_id (_vocab self)) sentence_tokens;
  store_tokens (_max_seq_length self) a
    (pack_tokens (_max_seq_length self) (_padding_index self) tokens).

(** [tokenize], on the entries that [_load_annotations] produced.
    [tensorize] then turns the three lists into arrays of the same
    content. *)
Definition tokenize (self : ReferExpressionDataset)
    (anns : list annotation) : result (list entry) :=
  mapM (tokenize_entry self) anns.

(** *** [__getitem__] *)

(** Line 167: [(x, y, w, h)] becomes [(x, y, x + w, y + h)]. *)
Definition ref_box_of (rb : Q * Q * Q * Q) : box :=
  let '(x, y, w, h) := rb in Box x y (x + w)%Q (y + h)%Q.

(** [t[t < 0.5] = 0], on one element. *)
Definition threshold (v : fnum) : fnum :=
  if flt v (1 # 2) then Fin 0 else v.

(** The values both branches of lines 174-196 define. *)
Record mixed : Type := Mixed {
  mix_boxes_ori : list box;
  mix_boxes : list (list Q);
  mix_features : list (list Q);
  mix_num_boxes : Z;
  mix_target : list (list fnum)
}.

(** Lines 168-196: the detector regions, merged in training mode with the
    ground-truth-derived ones, and their overlaps with the target box.
    [mix_boxes_ori[:, :4]] is the whole of a four-column array. *)
Definition merge (self : ReferExpressionDataset) (image_id : Z)
    (ref_box : box) : result mixed :=
  r ← reader_get (_image_features_reader self) image_id;
  let num_boxes := r_num_boxes r in
  let boxes_ori := slice_to (r_boxes_ori r) num_boxes in
  let boxes := slice_to (r_boxes r) num_boxes in
  let features := slice_to (r_features r) num_boxes in
  if String.eqb (split self) "train" then
    g ← reader_get (_gt_image_features_reader self) image_id;
    let gt_num_boxes := r_num_boxes g in
    let gt_boxes_ori := slice_1_to (r_boxes_ori g) gt_num_boxes in
    let gt_boxes := slice_1_to (r_boxes g) gt_num_boxes in
    let gt_features := slice_1_to (r_features g) gt_num_boxes in
    let mix_boxes_ori := boxes_ori ++ gt_boxes_ori in
    let mix_boxes := boxes ++ gt_boxes in
    let mix_features := features ++ gt_features in
    let mix_num_boxes :=
      Z.min (num_boxes + gt_num_boxes - 1) (Z.of_nat (max_region_num self)) in
    let mix_target := iou mix_boxes_ori [ref_box] in
    let mix_target := map (map threshold) mix_target in
    Ok (Mixed mix_boxes_ori mix_boxes mix_features mix_num_boxes mix_target)
  else
    let mix_num_boxes := Z.min num_boxes (Z.of_nat (max_region_num self)) in
    let mix_target := iou boxes_ori [ref_box] in
    Ok (Mixed boxes_ori boxes features mix_num_boxes mix_target).

(** Lines 198-200: [[1] * mix_num_boxes], then zeros appended while the
    list is shorter than [max_region_num]. *)
Definition make_image_mask (max_region_num : nat) (mix_num_boxes : Z)
    : list Q :=
  let image_mask := replicate (Z.to_nat mix_num_boxes) 1%Q in
  image_mask ++ replicate (max_region_num - length image_mask) 0%Q.

(** [np.zeros((rows, cols))] *)
Definition zeros (rows cols : nat) : list (list Q) :=
  replicate rows (replicate cols 0%Q).

(** Lines 198-221. *)
Definition pack (self : ReferExpressionDataset) (e : entry) (m : mixed)
    : result example :=
  let R := max_region_num self in
  let n := mix_num_boxes m in
  let image_mask := make_image_mask R n in
  mix_boxes_pad ← assign_to (zeros R 5) n (slice_to (mix_boxes m) n);
  mix_features_pad ←
    assign_to (zeros R 2048) n (slice_to (mix_features m) n);
  target ← assign_to (replicate R [Fin 0]) n (mix_target m);
  let co_attention_mask := zeros R (_max_seq_length self) in
  Ok (Example mix_features_pad mix_boxes_pad image_mask (token e) target
        (input_mask e) (segment_ids e) co_attention_mask (image_id e)).

Definition getitem (self : ReferExpressionDataset) (index : Z)
    : result example :=
  e ← Py.index (entries self) index;
  m ← merge self (image_id e) (ref_box_of (refBox e));
  pack self e m.

(** ** Predicates used by the statements *)

Definition training (self : ReferExpressionDataset) : bool :=
  String.eqb (split self) "train".

Definition wf_box (b : box) : Prop :=
  (x_min b <= x_max b)%Q /\ (y_min b <= y_max b)%Q.

(** Zero width or zero height. *)
Definition degenerate (b : box) : Prop :=
  wf_box b /\ (x_max b == x_min b \/ y_max b == y_min b)%Q.

(** The closed rectangles share no point. *)
Definition disjoint (a g : box) : Prop :=
  (x_max a < x_min g \/ x_max g < x_min a \/
   y_max a < y_min g \/ y_max g < y_min a)%Q.

(** The rectangles are at least one pixel apart along an axis. *)
Definition separated (a g : box) : Prop :=
  (x_max a + 1 <= x_min g \/ x_max g + 1 <= x_min a \/
   y_max a + 1 <= y_min g \/ y_max g + 1 <= y_min a)%Q.

(** The reported valid count is a count of rows that exist. *)
Definition shape_ok (r : regions) : bool :=
  (0 <=? r_num_boxes r)%Z
  && (r_num_boxes r <=? Z.of_nat (length (r_features r)))%Z
  && (r_num_boxes r <=? Z.of_nat (length (r_boxes r)))%Z
  && (r_num_boxes r <=? Z.of_nat (length (r_boxes_ori r)))%Z.

Definition at_image (reader : gmap Z regions) (id : Z)
    (P : regions -> bool) : bool :=
  match reader !! id with
  | Some r => P r
  | None => true
  end.

(** The stores consulted for image [id] report counts within their rows. *)
Definition well_shaped (self : ReferExpressionDataset) (id : Z) : bool :=
  at_image (_image_features_reader self) id shape_ok
  && (negb (training self)
      || at_image (_gt_image_features_reader self) id shape_ok).

(** The label the fetch gives a candidate whose raw overlap is [q]. *)
Definition label_of (self : ReferExpressionDataset) (v : fnum) : fnum :=
  if training self then threshold v else v.

(** Coordinates that are whole pixels. *)
Definition integral (b : box) : Prop :=
  exists x0 y0 x1 y1 : Z,
    (x_min b == inject_Z x0 /\ y_min b == inject_Z y0 /\
     x_max b == inject_Z x1 /\ y_max b == inject_Z y1)%Q.

(** The tokens of a caption, markers included, before the id lookup. *)
Definition marked (self : ReferExpressionDataset) (a : annotation)
    : list string :=
  ["[CLS]"%string] ++ _tokenizer self (a_caption a) ++ ["[SEP]"%string].


(** ** Concrete datasets *)

Module Scenario.

(** A store entry holding the given boxes, all of them valid. *)
Definition store_of (bs : list box) (num_boxes : Z) : regions :=
  Regions (replicate (length bs) (replicate 2048 1%Q)) num_boxes
    (replicate (length bs) (replicate 5 1%Q)) bs.

Definition vocab : gmap string Z :=
  {[ "[UNK]"%string := 100%Z; "[CLS]"%string := 101%Z;
     "[SEP]"%string := 102%Z; "a"%string := 1037%Z;
     "red"%string := 2417%Z ]}.

(** A stand-in for the external tokenizer. *)
Definition words (caption : string) : list string :=
  ["a"; "red"; "car"]%string.

Definition red_car : annotation :=
  Annotation "a red car" 0 7 (10, 10, 5, 5)%Q 0.

(** One caption about image 7, whose target box is [(10, 10, 5, 5)]. *)
Definition dataset (split : string) (det gt : regions)
    (max_region_num : nat) : ReferExpressionDataset :=
  Dataset split {[ 7%Z := det ]} {[ 7%Z := gt ]} words vocab 0 20
    max_region_num
    [Entry "a red car" 0 7 (10, 10, 5, 5)%Q 0
       ([101; 1037; 2417; 100; 102] ++ replicate 15 0)%Z
       (replicate 5 1 ++ replicate 15 0)%Z
       (replicate 20 0)%Z].

Definition gold : box := Box 10 10 15 15.
Definition far : box := Box 100 100 110 110.
Definition loose : box := Box 10 10 20 20.
Definition tight : box := Box 10 10 16 16.

(** Scenario B: training, 3 detector regions, 5 ground-truth ones. *)
Definition B : ReferExpressionDataset :=
  dataset "train" (store_of [gold; far; loose] 3)
    (store_of (replicate 5 gold) 5) 60.

(** Scenario C: evaluation, 70 detector regions, capacity 60. *)
Definition C : ReferExpressionDataset :=
  dataset "val" (store_of (replicate 70 far) 70) (store_of [] 0) 60.

(** Evaluation with a detector region that overlaps the target loosely. *)
Definition loose_eval : ReferExpressionDataset :=
  dataset "val" (store_of [gold; loose] 2) (store_of [] 0) 3.

(** Training with the same detector regions and one extra candidate. *)
Definition small_train : ReferExpressionDataset :=
  dataset "train" (store_of [tight; loose] 2) (store_of [gold; far] 2) 4.

(** Training when the ground-truth store reports no valid region. *)
Definition no_gt : ReferExpressionDataset :=
  dataset "train" (store_of [gold; far] 2) (store_of [gold] 0) 60.

Definition no_gt_single : ReferExpressionDataset :=
  dataset "train" (store_of [gold] 1) (store_of [gold] 0) 3.

Definition the_entry (self : ReferExpressionDataset) : entry :=
  default (Entry "" 0 0 (0, 0, 0, 0)%Q 0 [] [] []) (entries self !! 0%nat).

Definition target_box : box := ref_box_of (10, 10, 5, 5)%Q.

(** What [merge] and [getitem] return for the entry, when they return. *)
Definition merged (self : ReferExpressionDataset) : mixed :=
  match merge self 7 target_box with
  | Ok m => m
  | Raise _ => Mixed [] [] [] 0 []
  end.

Definition fetched (self : ReferExpressionDataset) : example :=
  match getitem self 0 with
  | Ok out => out
  | Raise _ => Example [] [] [] [] [] [] [] [] 0
  end.

Definition packed_entry : entry :=
  match tokenize_entry B red_car with
  | Ok e => e
  | Raise _ => the_entry B
  end.

End Scenario.

(** ** The annotation source and the remaining methods *)

(** A sentence of a reference: only its ['raw'] key is read. *)
Record sentence : Type := Sentence { raw : string }.

(** A value of [refer.Refs]. *)
Record ref : Type := Ref {
  ref_image_id : Z;
  ref_ref_id : Z;
  sentences : list sentence;
  sent_ids : list Z
}.

(** The part of the [REFER] object the dataset consults: the [Refs]
    dictionary and the [getRefBox] method. *)
Record REFER : Type := Refer {
  Refs : gmap Z ref;
  getRefBox : Z -> result (Q * Q * Q * Q)
}.

(** The body of the outer loop of [_load_annotations]: the entries of one
    reference id.  The loop variable is rebound to the reference's own
    ['ref_id'] before the box is fetched. *)
Definition load_ref (refer : REFER) (ref_id : Z) : result (list annotation) :=
  match Refs refer !! ref_id with
  | None => Raise KeyError
  | Some ref =>
      let image_id := ref_image_id ref in
      let ref_id := ref_ref_id ref in
      refBox ← getRefBox refer ref_id;
      Ok (map (fun '(sent, sent_id) =>
                 Annotation (raw sent) sent_id image_id refBox ref_id)
            (zip (sentences ref) (sent_ids ref)))
  end.

(** The annotations [load_ref] builds from a reference and its box. *)
Definition annotations_of (r : ref) (b : Q * Q * Q * Q) : list annotation :=
  map (fun '(sent, sent_id) =>
         Annotation (raw sent) sent_id (ref_image_id r) b (ref_ref_id r))
    (zip (sentences r) (sent_ids r)).

(** [_load_annotations], over [self.ref_ids]. *)
Definition _load_annotations (refer : REFER) (ref_ids : list Z)
    : result (list annotation) :=
  per_ref ← mapM (load_ref refer) ref_ids;
  Ok (concat per_ref).

(** [__len__] *)
Definition len (self : ReferExpressionDataset) : nat := length (entries self).

(** The dataset with its [entries] attribute set. *)
Definition with_entries (self : ReferExpressionDataset) (es : list entry)
    : ReferExpressionDataset :=
  Dataset (split self) (_image_features_reader self)
    (_gt_image_features_reader self) (_tokenizer self) (_vocab self)
    (_padding_index self) (_max_seq_length self) (max_region_num self) es.

(** The dataset over another ground-truth region store. *)
Definition with_gt_reader (self : ReferExpressionDataset)
    (gt : gmap Z regions) : ReferExpressionDataset :=
  Dataset (split self) (_image_features_reader self) gt (_tokenizer self)
    (_vocab self) (_padding_index self) (_max_seq_length self)
    (max_region_num self) (entries self).

(** ** Further predicates *)

(** Equality of float results, up to the representation of a rational. *)
Definition feq (u v : fnum) : Prop :=
  match u, v with
  | Fin p, Fin q => (p == q)%Q
  | PInf, PInf | NInf, NInf | NaN, NaN => True
  | _, _ => False
  end.

(** [k] source rows can be assigned to [n] selected rows. *)
Definition fits (n k : nat) : Prop := k = n \/ k = 1%nat.

(** The fetch returns an example. *)
Definition returns (self : ReferExpressionDataset) (index : Z) : Prop :=
  exists out, getitem self index = Ok out.

Module Sample.

Definition refs : REFER :=
  Refer {[ 1%Z := Ref 7 1 [Sentence "a red car"; Sentence "the car"] [10; 11]%Z;
           2%Z := Ref 8 2 [Sentence "left dog"] [12; 13]%Z ]}
    (fun id => if (id =? 1)%Z then Ok (10, 10, 5, 5)%Q
               else Ok (0, 0, 20, 30)%Q).

(** A caption of more tokens than [max_seq_length]. *)
Definition short_length : ReferExpressionDataset :=
  Dataset "val" ∅ ∅ Scenario.words Scenario.vocab 0 4 60 [].


(** Evaluation with two detector regions within capacity. *)
Definition eval_fits : ReferExpressionDataset :=
  Scenario.dataset "val" (Scenario.store_of [Scenario.gold; Scenario.far] 2)
    (Scenario.store_of [] 0) 3.

(** What the methods return on the samples, when they return. *)
Definition cut_entry : entry :=
  match tokenize_entry short_length Scenario.red_car with
  | Ok e => e
  | Raise _ => Scenario.the_entry Scenario.B
  end.

Definition loaded (ids : list Z) : list annotation :=
  match _load_annotations refs ids with
  | Ok anns => anns
  | Raise _ => []
  end.

Definition tokenized (self : ReferExpressionDataset)
    (anns : list annotation) : list entry :=
  match tokenize self anns with
  | Ok es => es
  | Raise _ => []
  end.

(** [Scenario.small_train] with its entries built by [tokenize]. *)
Definition rebuilt : ReferExpressionDataset :=
  with_entries Scenario.small_train
    (tokenized Scenario.small_train [Scenario.red_car]).

End Sample.

(** ** The arithmetic of [iou] and of the labels, left open

    [overlap], [merge], [pack] and [getitem] above compute with exact
    rationals.  The program computes in floating point: the anchors array
    has the dtype of the region store, the query boxes are a float64 array
    built from Python floats, mixed operations run in the promoted dtype,
    and the labels are converted to float32 when they are assigned to the
    target tensor.  The definitions below follow the same source lines with
    every rounding operation left as a parameter, so that what is proved
    of them holds of the program whatever its arithmetic. *)

(** The four rounded operations of one dtype. *)
Record ops : Type := Ops {
  o_add : fnum -> fnum -> fnum;
  o_sub : fnum -> fnum -> fnum;
  o_mul : fnum -> fnum -> fnum;
  o_div : fnum -> fnum -> fnum
}.

Record arith : Type := Arith {
  anchor_ops : ops;              (* dtype of [anchors]: line 34 *)
  query_ops : ops;               (* dtype of [gt_boxes]: line 33 *)
  joint_ops : ops;               (* promoted dtype: lines 39-46 *)
  py_add : Q -> Q -> Q;          (* Python float [+]: line 167 *)
  to_float32 : fnum -> fnum      (* conversion into [target]: line 214 *)
}.

(** [(b[2] - b[0] + 1) * (b[3] - b[1] + 1)] in one dtype. *)
Definition area_with (o : ops) (b : box) : fnum :=
  o_mul o
    (o_add o (o_sub o (Fin (x_max b)) (Fin (x_min b))) (Fin 1))
    (o_add o (o_sub o (Fin (y_max b)) (Fin (y_min b))) (Fin 1)).

(** [w[w < 0] = 0] on a float: [nan < 0] is false. *)
Definition clip_with (w : fnum) : fnum := if flt w 0 then Fin 0 else w.

(** Lines 39-40: [np.minimum] and [np.maximum] select a value, then the
    subtraction and the addition round. *)
Definition iw_with (o : ops) (a g : box) : fnum :=
  clip_with
    (o_add o
       (o_sub o (Fin (Qmin (x_max a) (x_max g)))
          (Fin (Qmax (x_min a) (x_min g))))
       (Fin 1)).

Definition ih_with (o : ops) (a g : box) : fnum :=
  clip_with
    (o_add o
       (o_sub o (Fin (Qmin (y_max a) (y_max g)))
          (Fin (Qmax (y_min a) (y_min g))))
       (Fin 1)).

Definition inter_with (ar : arith) (a g : box) : fnum :=
  o_mul (joint_ops ar) (iw_with (joint_ops ar) a g) (ih_with (joint_ops ar) a g).

Definition ua_with (ar : arith) (a g : box) : fnum :=
  o_sub (joint_ops ar)
    (o_add (joint_ops ar) (area_with (anchor_ops ar) a)
       (area_with (query_ops ar) g))
    (inter_with ar a g).

Definition overlap_with (ar : arith) (a g : box) : fnum :=
  o_div (joint_ops ar) (inter_with ar a g) (ua_with ar a g).

Definition iou_with (ar : arith) (anchors gt_boxes : list box)
    : list (list fnum) :=
  map (fun a => map (fun g => overlap_with ar a g) gt_boxes) anchors.

(** Line 167 in Python floats. *)
Definition ref_box_with (ar : arith) (rb : Q * Q * Q * Q) : box :=
  let '(x, y, w, h) := rb in Box x y (py_add ar x w) (py_add ar y h).

(** Lines 168-196, as [merge], over the open arithmetic. *)
Definition merge_with (ar : arith) (self : ReferExpressionDataset)
    (image_id : Z) (ref_box : box) : result mixed :=
  r ← reader_get (_image_features_reader self) image_id;
  let num_boxes := r_num_boxes r in
  let boxes_ori := slice_to (r_boxes_ori r) num_boxes in
  let boxes := slice_to (r_boxes r) num_boxes in
  let features := slice_to (r_features r) num_boxes in
  if String.eqb (split self) "train" then
    g ← reader_get (_gt_image_features_reader self) image_id;
    let gt_num_boxes := r_num_boxes g in
    let gt_boxes_ori := slice_1_to (r_boxes_ori g) gt_num_boxes in
    let gt_boxes := slice_1_to (r_boxes g) gt_num_boxes in
    let gt_features := slice_1_to (r_features g) gt_num_boxes in
    let mix_boxes_ori := boxes_ori ++ gt_boxes_ori in
    let mix_boxes := boxes ++ gt_boxes in
    let mix_features := features ++ gt_features in
    let mix_num_boxes :=
      Z.min (num_boxes + gt_num_boxes - 1) (Z.of_nat (max_region_num self)) in
    let mix_target := iou_with ar mix_boxes_ori [ref_box] in
    let mix_target := map (map threshold) mix_target in
    Ok (Mixed mix_boxes_ori mix_boxes mix_features mix_num_boxes mix_target)
  else
    let mix_num_boxes := Z.min num_boxes (Z.of_nat (max_region_num self)) in
    let mix_target := iou_with ar boxes_ori [ref_box] in
    Ok (Mixed boxes_ori boxes features mix_num_boxes mix_target).

(** Lines 198-221, as [pack]; the rows assigned to the float32 target are
    converted. *)
Definition pack_with (ar : arith) (self : ReferExpressionDataset)
    (e : entry) (m : mixed) : result example :=
  let R := max_region_num self in
  let n := mix_num_boxes m in
  let image_mask := make_image_mask R n in
  mix_boxes_pad ← assign_to (zeros R 5) n (slice_to (mix_boxes m) n);
  mix_features_pad ←
    assign_to (zeros R 2048) n (slice_to (mix_features m) n);
  target ← assign_to (replicate R [Fin 0]) n
              (map (map (to_float32 ar)) (mix_target m));
  let co_attention_mask := zeros R (_max_seq_length self) in
  Ok (Example mix_features_pad mix_boxes_pad image_mask (token e) target
        (input_mask e) (segment_ids e) co_attention_mask (image_id e)).

Definition getitem_with (ar : arith) (self : ReferExpressionDataset)
    (index : Z) : result example :=
  e ← Py.index (entries self) index;
  m ← merge_with ar self (image_id e) (ref_box_with ar (refBox e));
  pack_with ar self e m.

(** *** Exact arithmetic *)

Definition lift (f : Q -> Q -> Q) (u v : fnum) : fnum :=
  match u, v with
  | Fin p, Fin q => Fin (f p q)
  | _, _ => NaN
  end.

Definition exact_div (u v : fnum) : fnum :=
  match u, v with
  | Fin n, Fin d => fdiv n d
  | _, _ => NaN
  end.

Definition exact_ops : ops := Ops (lift Qplus) (lift Qminus) (lift Qmult) exact_div.

(** The arithmetic under which the definitions above are [overlap],
    [merge], [pack] and [getitem]. *)
Definition exact : arith :=
  Arith exact_ops exact_ops exact_ops Qplus (fun v => v).

(** *** IEEE 754 arithmetic *)

Module IEEE.

(** The value of a float of the specification in [Corelib.Floats]. *)
Definition of_spec (x : spec_float) : fnum :=
  match x with
  | S754_zero _ => Fin 0
  | S754_infinity false => PInf
  | S754_infinity true => NInf
  | S754_nan => NaN
  | S754_finite s m e =>
      let n := if s then Z.neg m else Z.pos m in
      match e with
      | Z0 => Fin (n # 1)
      | Z.pos p => Fin ((n * 2 ^ Z.pos p)%Z # 1)
      | Z.neg p => Fin (n # 2 ^ p)
      end
  end.

(** The float of precision [prec] nearest to a value. *)
Definition to_spec (prec emax : Z) (v : fnum) : spec_float :=
  match v with
  | Fin q =>
      SFdiv prec emax (binary_normalize prec emax (Qnum q) 0 false)
        (binary_normalize prec emax (Z.pos (Qden q)) 0 false)
  | PInf => S754_infinity false
  | NInf => S754_infinity true
  | NaN => S754_nan
  end.

Definition round (prec emax : Z) (v : fnum) : fnum :=
  of_spec (to_spec prec emax v).

Definition op (prec emax : Z)
    (f : Z -> Z -> spec_float -> spec_float -> spec_float)
    (u v : fnum) : fnum :=
  of_spec (f prec emax (to_spec prec emax u) (to_spec prec emax v)).

Definition ops_of (prec emax : Z) : ops :=
  Ops (op prec emax SFadd) (op prec emax SFsub) (op prec emax SFmul)
    (op prec emax SFdiv).

Definition binary32 : ops := ops_of 24 128.
Definition binary64 : ops := ops_of 53 1024.

Definition finite (v : fnum) : Q :=
  match v with Fin q => q | _ => 0%Q end.

(** NumPy over a float32 region store: float32 anchors, float64 query
    boxes, float64 mixed operations, float32 labels. *)
Definition numpy : arith :=
  Arith binary32 binary64 binary64
    (fun x y => finite (o_add binary64 (Fin x) (Fin y)))
    (round 24 128).

End IEEE.

(** *** Samples for the open arithmetic *)

Module FloatSample.

(** What [getitem_with] and [merge_with] return, when they return. *)
Definition fetched_with (ar : arith) (self : ReferExpressionDataset)
    : example :=
  match getitem_with ar self 0 with
  | Ok out => out
  | Raise _ => Example [] [] [] [] [] [] [] [] 0
  end.


(** Training over one detector region and the given target box. *)
Definition one_region (b : box) (rb : Q * Q * Q * Q)
    : ReferExpressionDataset :=
  Dataset "train" {[ 7%Z := Scenario.store_of [b] 1 ]}
    {[ 7%Z := Scenario.store_of [b] 1 ]} Scenario.words Scenario.vocab 0 20 2
    [Entry "a red car" 0 7 rb 0 [] [] []].

(** A float32 box and the target box of the same corners. *)
Definition odd_box : box :=
  Box (11316629 # 65536) (4703487 # 16384) (14264821 # 32768)
    (3141019 # 8192).

Definition same_corners : ReferExpressionDataset :=
  one_region odd_box
    (11316629 # 65536, 4703487 # 16384,
     (14264821 # 32768) - (11316629 # 65536),
     (3141019 # 8192) - (4703487 # 16384))%Q.

(** A box filling exactly half of the union with its target box. *)
Definition half_covered : ReferExpressionDataset :=
  one_region (Box 0 0 8000 5157) (0, 0, 16001, 5157)%Q.

End FloatSample.

(** ** [tokenize] for any Python int [max_seq_length]

    [pack_tokens], [store_tokens] and [tokenize] above take
    [max_seq_length] as a natural number.  The definitions below follow
    the same lines for any integer: a negative [max_seq_length] makes
    [tokens[:max_seq_length]] drop ids from the end, and the length check
    of line 144 compare a length with a negative number. *)

(** [assert_eq(len(tokens), self._max_seq_length)] *)
Definition assert_eq_int (real expected : Z) : result unit :=
  if decide (real = expected) then Ok tt else Raise AssertionError.

(** Lines 133-143. *)
Definition pack_tokens_int (max_seq_length : Z) (padding_index : Z)
    (ids : list Z) : list Z * list Z * list Z :=
  let tokens := slice_to ids max_seq_length in
  let segment_ids := replicate (length tokens) 0%Z in
  let input_mask := replicate (length tokens) 1%Z in
  if decide (Z.of_nat (length tokens) < max_seq_length)%Z then
    let padding :=
      replicate (Z.to_nat (max_seq_length - Z.of_nat (length tokens)))
        padding_index in
    (tokens ++ padding, input_mask ++ padding, segment_ids ++ padding)
  else (tokens, input_mask, segment_ids).

(** Lines 144-147. *)
Definition store_tokens_int (max_seq_length : Z) (a : annotation)
    (packed : list Z * list Z * list Z) : result entry :=
  let '(tokens, input_mask, segment_ids) := packed in
  _ ← assert_eq_int (Z.of_nat (length tokens)) max_seq_length;
  Ok (Entry (a_caption a) (a_sent_id a) (a_image_id a) (a_refBox a)
        (a_ref_id a) tokens input_mask segment_ids).

(** The body of the loop of [tokenize], with [self._max_seq_length] given
    apart. *)
Definition tokenize_entry_int (self : ReferExpressionDataset)
    (max_seq_length : Z) (a : annotation) : result entry :=
  let sentence_tokens := _tokenizer self (a_caption a) in
  let sentence_tokens :=
    ["[CLS]"%string] ++ sentence_tokens ++ ["[SEP]"%string] in
  tokens ← mapM (vocab_id (_vocab self)) sentence_tokens;
  store_tokens_int max_seq_length a
    (pack_tokens_int max_seq_length (_padding_index self) tokens).

Definition tokenize_int (self : ReferExpressionDataset)
    (max_seq_length : Z) (anns : list annotation) : result (list entry) :=
  mapM (tokenize_entry_int self max_seq_length) anns.

(** Lines 88-94 of [__init__]. *)
Definition init_entries_int (self : ReferExpressionDataset)
    (max_seq_length : Z) (cached : option (list entry))
    (anns : list annotation) : result (list entry) :=
  match cached with
  | None => tokenize_int self max_seq_length anns
  | Some es => Ok es
  end.

(** The three vectors of an entry have [n] elements. *)
Definition fixed_length (n : nat) (e : entry) : Prop :=
  length (token e) = n /\ length (input_mask e) = n /\
  length (segment_ids e) = n.

(** * Proofs *)

Ltac by_computation := vm_compute; reflexivity.

(** * Properties of the overlap engine *)

Section Overlap.
Local Open Scope Q_scope.

Lemma Qltb_lt x y : Qltb x y = true <-> x < y.
Proof.
  unfold Qltb. rewrite Qlt_alt. destruct (x ?= y); split; congruence.
Qed.

Lemma Qltb_ge x y : Qltb x y = false <-> y <= x.
Proof.
  rewrite <- not_true_iff_false, Qltb_lt. split; [apply Qnot_lt_le | apply Qle_not_lt].
Qed.

Lemma clip_spec w : (w < 0 /\ clip w = 0) \/ (0 <= w /\ clip w = w).
Proof.
  unfold clip. destruct (Qltb w 0) eqn:E.
  - left. split; [by apply Qltb_lt | done].
  - right. split; [by apply Qltb_ge | done].
Qed.

Lemma clip_nonneg w : 0 <= clip w.
Proof. destruct (clip_spec w) as [[? ->] | [? ->]]; lra. Qed.

Lemma iw_nonneg a g : 0 <= iw a g.
Proof. apply clip_nonneg. Qed.

Lemma ih_nonneg a g : 0 <= ih a g.
Proof. apply clip_nonneg. Qed.

Lemma clip_span_pos lo1 hi1 lo2 hi2 :
  0 < clip (Qmin hi1 hi2 - Qmax lo1 lo2 + 1) ->
  clip (Qmin hi1 hi2 - Qmax lo1 lo2 + 1) <= hi1 - lo1 + 1 /\
  clip (Qmin hi1 hi2 - Qmax lo1 lo2 + 1) <= hi2 - lo2 + 1.
Proof.
  intros Hpos.
  pose proof (Q.le_min_l hi1 hi2). pose proof (Q.le_min_r hi1 hi2).
  pose proof (Q.le_max_l lo1 lo2). pose proof (Q.le_max_r lo1 lo2).
  destruct (clip_spec (Qmin hi1 hi2 - Qmax lo1 lo2 + 1)) as [[? E] | [? E]];
    rewrite E in *; lra.
Qed.

Lemma clip_span_wf lo1 hi1 lo2 hi2 :
  lo1 <= hi1 ->
  clip (Qmin hi1 hi2 - Qmax lo1 lo2 + 1) <= hi1 - lo1 + 1.
Proof.
  intros Hwf.
  pose proof (Q.le_min_l hi1 hi2). pose proof (Q.le_max_l lo1 lo2).
  destruct (clip_spec (Qmin hi1 hi2 - Qmax lo1 lo2 + 1)) as [[? E] | [? E]];
    rewrite E; lra.
Qed.

Lemma clip_span_sep lo1 hi1 lo2 hi2 :
  hi1 + 1 <= lo2 \/ hi2 + 1 <= lo1 ->
  clip (Qmin hi1 hi2 - Qmax lo1 lo2 + 1) == 0.
Proof.
  intros Hsep.
  pose proof (Q.le_min_l hi1 hi2). pose proof (Q.le_min_r hi1 hi2).
  pose proof (Q.le_max_l lo1 lo2). pose proof (Q.le_max_r lo1 lo2).
  destruct (clip_spec (Qmin hi1 hi2 - Qmax lo1 lo2 + 1)) as [[? E] | [? E]];
    rewrite E; lra.
Qed.

Lemma mult_pos_inv x y : 0 <= x -> 0 <= y -> 0 < x * y -> 0 < x /\ 0 < y.
Proof. intros. split; nra. Qed.

(** A positive intersection fits inside both boxes, whatever the boxes. *)
Lemma inter_pos_le_ua a g :
  0 < iw a g * ih a g -> 0 < ua a g /\ iw a g * ih a g <= ua a g.
Proof.
  intros Hpos.
  destruct (mult_pos_inv _ _ (iw_nonneg a g) (ih_nonneg a g) Hpos) as [Hw Hh].
  destruct (clip_span_pos _ _ _ _ Hw) as [Hwa Hwg].
  destruct (clip_span_pos _ _ _ _ Hh) as [Hha Hhg].
  fold (iw a g) in Hwa, Hwg. fold (ih a g) in Hha, Hhg.
  unfold ua, area. split; nra.
Qed.

Lemma ua_ge_1 a g : wf_box a -> wf_box g -> 1 <= ua a g.
Proof.
  intros [Hax Hay] [Hgx Hgy].
  pose proof (iw_nonneg a g). pose proof (ih_nonneg a g).
  pose proof (clip_span_wf (x_min a) (x_max a) (x_min g) (x_max g) Hax) as Hw.
  pose proof (clip_span_wf (y_min a) (y_max a) (y_min g) (y_max g) Hay) as Hh.
  fold (iw a g) in Hw. fold (ih a g) in Hh.
  unfold ua, area. nra.
Qed.
End Overlap.

Section OverlapValue.
Local Open Scope Q_scope.

Lemma fdiv_nonzero n d : ~ d == 0 -> fdiv n d = Fin (n / d).
Proof.
  intros Hd. unfold fdiv. destruct (Qeq_bool d 0) eqn:E; [|done].
  apply Qeq_bool_iff in E. contradiction.
Qed.

Lemma overlap_finite a g :
  0 < ua a g -> iw a g * ih a g <= ua a g ->
  overlap a g = Fin (iw a g * ih a g / ua a g) /\
  0 <= iw a g * ih a g / ua a g <= 1.
Proof.
  intros Hpos Hle. unfold overlap. split.
  - apply fdiv_nonzero. lra.
  - pose proof (iw_nonneg a g). pose proof (ih_nonneg a g). split.
    + apply Qle_shift_div_l; [done | nra].
    + apply Qle_shift_div_r; [done | lra].
Qed.

Lemma inter_le_ua_wf a g :
  wf_box a -> wf_box g -> iw a g * ih a g <= ua a g.
Proof.
  intros Ha Hg. pose proof (ua_ge_1 a g Ha Hg).
  pose proof (iw_nonneg a g). pose proof (ih_nonneg a g).
  destruct (Qlt_le_dec 0 (iw a g * ih a g)) as [Hpos | Hz].
  - by apply inter_pos_le_ua.
  - lra.
Qed.

Lemma overlap_wf a g :
  wf_box a -> wf_box g ->
  overlap a g = Fin (iw a g * ih a g / ua a g) /\
  0 <= iw a g * ih a g / ua a g <= 1.
Proof.
  intros Ha Hg. apply overlap_finite.
  - pose proof (ua_ge_1 a g Ha Hg). lra.
  - by apply inter_le_ua_wf.
Qed.

End OverlapValue.

(** * The claims about the overlap engine *)

Section OverlapClaims.
Local Open Scope Q_scope.

Lemma span_self lo hi :
  lo <= hi -> clip (Qmin hi hi - Qmax lo lo + 1) == hi - lo + 1.
Proof.
  intros Hwf. pose proof (Q.min_id hi). pose proof (Q.max_id lo).
  destruct (clip_spec (Qmin hi hi - Qmax lo lo + 1)) as [[? E] | [? E]];
    rewrite E; lra.
Qed.

Lemma inter_self a : wf_box a -> iw a a * ih a a == area a.
Proof.
  intros [Hx Hy]. unfold iw, ih, area.
  by rewrite (span_self _ _ Hx), (span_self _ _ Hy).
Qed.

Lemma area_ge_1 a : wf_box a -> 1 <= area a.
Proof. intros [Hx Hy]. unfold area. nra. Qed.

(** The union is zero only for boxes that are not well-formed. *)
Lemma ua_zero_not_wf a g : ua a g == 0 -> ~ (wf_box a /\ wf_box g).
Proof. intros Hz [Ha Hg]. pose proof (ua_ge_1 a g Ha Hg). lra. Qed.

Lemma separated_inter_zero a g : separated a g -> iw a g * ih a g == 0.
Proof.
  intros Hsep. unfold iw, ih.
  destruct Hsep as [H | [H | [H | H]]].
  - rewrite (clip_span_sep (x_min a) (x_max a) (x_min g) (x_max g)); [lra | by left].
  - rewrite (clip_span_sep (x_min a) (x_max a) (x_min g) (x_max g)); [lra | by right].
  - rewrite (clip_span_sep (y_min a) (y_max a) (y_min g) (y_max g)); [lra | by left].
  - rewrite (clip_span_sep (y_min a) (y_max a) (y_min g) (y_max g)); [lra | by right].
Qed.

Lemma Z_gap x y : inject_Z x < inject_Z y -> inject_Z x + 1 <= inject_Z y.
Proof.
  rewrite <- Zlt_Qlt. intros H.
  change 1 with (inject_Z 1). rewrite <- inject_Z_plus, <- Zle_Qle. lia.
Qed.

(** On whole-pixel boxes, disjoint rectangles are a pixel apart. *)
Lemma disjoint_integral_separated a g :
  integral a -> integral g -> disjoint a g -> separated a g.
Proof.
  intros (ax0 & ay0 & ax1 & ay1 & Ea0 & Eb0 & Ea1 & Eb1)
         (gx0 & gy0 & gx1 & gy1 & Eg0 & Eh0 & Eg1 & Eh1).
  unfold disjoint, separated.
  rewrite Ea0, Eb0, Ea1, Eb1, Eg0, Eh0, Eg1, Eh1.
  intros [H | [H | [H | H]]]; apply Z_gap in H; tauto.
Qed.
End OverlapClaims.

(** C4. A degenerate box (zero width or zero height) paired with any
    well-formed box has a positive union, so the division is well-defined
    and gives a number; the intersection is not zero in general: with the
    inclusive-pixel areas a degenerate box has an area of at least 1 and,
    paired with itself, an intersection of at least 1. *)
Theorem degenerate_box_union_positive (a g : box) :
  degenerate a -> wf_box g ->
  (0 < ua a g)%Q /\
  (exists q, overlap a g = Fin q) /\
  (1 <= area a)%Q /\
  (1 <= iw a a * ih a a)%Q.
Proof.
  intros [Ha _] Hg.
  pose proof (ua_ge_1 a g Ha Hg) as Hu.
  split; [lra|].
  split; [eexists; by apply overlap_wf|].
  pose proof (area_ge_1 a Ha) as Har.
  split; [done|]. by rewrite inter_self.
Qed.

(** C7. Two well-formed boxes that are at least one pixel
    apart along an axis (as disjoint whole-pixel boxes are) have IoU
    exactly 0; the intersection width and height are never negative. *)
Theorem separated_boxes_zero_iou (a g : box) :
  wf_box a -> wf_box g -> separated a g ->
  (0 <= iw a g)%Q /\ (0 <= ih a g)%Q /\
  (iw a g * ih a g == 0)%Q /\
  exists q, overlap a g = Fin q /\ (q == 0)%Q.
Proof.
  intros Ha Hg Hsep.
  split; [apply iw_nonneg|]. split; [apply ih_nonneg|].
  pose proof (separated_inter_zero a g Hsep) as Hi.
  split; [done|].
  destruct (overlap_wf a g Ha Hg) as [Ho _].
  eexists. split; [exact Ho|]. rewrite Hi. unfold Qdiv. lra.
Qed.

(** * Slices and broadcasting assignments *)

Section Arrays.
Context {A : Type}.
Implicit Types (l dst src : list A) (c : Z) (k : nat).

Lemma slice_to_take l c :
  (0 <= c)%Z -> slice_to l c = take (Z.to_nat c) l.
Proof. intros Hc. unfold slice_to. by rewrite (proj2 (Z.leb_le 0 c) Hc). Qed.

Lemma slice_to_neg l c :
  (c < 0)%Z -> slice_to l c = take (length l - Z.to_nat (- c)) l.
Proof. intros Hc. unfold slice_to. by rewrite (proj2 (Z.leb_gt 0 c) Hc). Qed.

Lemma length_slice_to l c :
  (0 <= c <= Z.of_nat (length l))%Z -> length (slice_to l c) = Z.to_nat c.
Proof. intros [H0 Hl]. rewrite slice_to_take, length_take by done. lia. Qed.

Lemma length_slice_1_to l c :
  (0 <= c <= Z.of_nat (length l))%Z ->
  length (slice_1_to l c) = (Z.to_nat c - 1)%nat.
Proof.
  intros Hc. unfold slice_1_to. by rewrite length_drop, length_slice_to.
Qed.

(** What a successful [dst[:c] = src] leaves in the array, when [src] has
    at least [c] rows. *)
Lemma assign_to_spec dst c src r :
  assign_to dst c src = Ok r ->
  (-1 <= c <= Z.of_nat (length dst))%Z ->
  (c <= Z.of_nat (length src))%Z ->
  (c = -1 -> src = [])%Z ->
  length r = length dst /\
  (forall k, (k < Z.to_nat c)%nat -> r !! k = src !! k) /\
  (forall k, (Z.to_nat c <= k)%nat -> r !! k = dst !! k).
Proof.
  unfold assign_to. intros Hr Hc Hsrc Hneg.
  destruct (Z.le_gt_cases 0 c) as [H0 | Hlt].
  - rewrite length_slice_to in Hr by lia.
    destruct (decide (length src = Z.to_nat c)) as [Hlen | Hlen].
    + injection Hr as <-. split; [|split].
      * rewrite length_app, length_drop. lia.
      * intros k Hk. apply lookup_app_l. lia.
      * intros k Hk. rewrite lookup_app_r, lookup_drop by lia.
        f_equal. lia.
    + destruct src as [|x [|y src]]; try discriminate.
      injection Hr as <-. simpl in Hsrc, Hlen.
      assert (Z.to_nat c = 0%nat) as -> by lia. simpl.
      split; [done | split; [intros; lia | done]].
  - assert (c = -1)%Z as -> by lia. rewrite (Hneg eq_refl) in Hr.
    simpl in Hr. destruct (decide _) as [Hlen | Hlen]; [|discriminate].
    injection Hr as <-. rewrite <- Hlen. simpl. rewrite drop_0.
    split; [done | split; [intros; lia | done]].
Qed.

Lemma assign_to_exact dst c src :
  (0 <= c <= Z.of_nat (length dst))%Z ->
  length src = Z.to_nat c ->
  assign_to dst c src = Ok (src ++ drop (Z.to_nat c) dst).
Proof.
  intros Hc Hlen. unfold assign_to. rewrite length_slice_to by done.
  by rewrite decide_True.
Qed.

Lemma assign_to_mismatch dst c src :
  (0 <= c <= Z.of_nat (length dst))%Z ->
  length src <> Z.to_nat c -> length src <> 1%nat ->
  assign_to dst c src = Raise ValueError.
Proof.
  intros Hc Hlen H1. unfold assign_to. rewrite length_slice_to by done.
  rewrite decide_False by done. by destruct src as [|x [|y src]].
Qed.
End Arrays.

Lemma bind_Ok_inv {A B} (m : result A) (f : A -> result B) b :
  m ≫= f = Ok b -> exists a, m = Ok a /\ f a = Ok b.
Proof. destruct m as [a|e]; [eauto | discriminate]. Qed.

Lemma mapM_Ok_length {A B} (f : A -> result B) l l' :
  mapM f l = Ok l' -> length l' = length l.
Proof.
  revert l'. induction l as [|x l IH]; intros l' H.
  - by injection H as <-.
  - simpl in H. apply bind_Ok_inv in H as (y & _ & H).
    apply bind_Ok_inv in H as (k & Hk & H). injection H as <-.
    simpl. f_equal. by apply IH.
Qed.

Lemma mapM_total {A B} (f : A -> result B) l :
  (forall x, exists y, f x = Ok y) -> exists l', mapM f l = Ok l'.
Proof.
  intros Hf. induction l as [|x l [l' IH]]; [by eexists|].
  destruct (Hf x) as [y Hy]. exists (y :: l'). simpl. rewrite Hy. simpl.
  rewrite IH. done.
Qed.

(** * The per-index fetch, step by step *)

Section Fetch.
Implicit Types (self : ReferExpressionDataset) (e : entry) (m : mixed)
  (out : example) (r g : regions).

Lemma shape_ok_spec r :
  shape_ok r = true ->
  (0 <= r_num_boxes r <= Z.of_nat (length (r_features r)))%Z /\
  (r_num_boxes r <= Z.of_nat (length (r_boxes r)))%Z /\
  (r_num_boxes r <= Z.of_nat (length (r_boxes_ori r)))%Z.
Proof. unfold shape_ok. rewrite !andb_true_iff, !Z.leb_le. lia. Qed.

Lemma reader_get_Ok reader id r :
  reader_get reader id = Ok r <-> reader !! id = Some r.
Proof.
  unfold reader_get. destruct (reader !! id); split; intros H; by simplify_eq.
Qed.

(** The two branches of [merge], once the stores have answered. *)
Lemma merge_eval self id rb r :
  training self = false ->
  _image_features_reader self !! id = Some r ->
  merge self id rb =
    Ok (Mixed (slice_to (r_boxes_ori r) (r_num_boxes r))
          (slice_to (r_boxes r) (r_num_boxes r))
          (slice_to (r_features r) (r_num_boxes r))
          (Z.min (r_num_boxes r) (Z.of_nat (max_region_num self)))
          (iou (slice_to (r_boxes_ori r) (r_num_boxes r)) [rb])).
Proof.
  unfold training, merge, reader_get. intros -> ->. done.
Qed.

Lemma merge_train self id rb r g :
  training self = true ->
  _image_features_reader self !! id = Some r ->
  _gt_image_features_reader self !! id = Some g ->
  merge self id rb =
    Ok (Mixed
          (slice_to (r_boxes_ori r) (r_num_boxes r)
             ++ slice_1_to (r_boxes_ori g) (r_num_boxes g))
          (slice_to (r_boxes r) (r_num_boxes r)
             ++ slice_1_to (r_boxes g) (r_num_boxes g))
          (slice_to (r_features r) (r_num_boxes r)
             ++ slice_1_to (r_features g) (r_num_boxes g))
          (Z.min (r_num_boxes r + r_num_boxes g - 1)
             (Z.of_nat (max_region_num self)))
          (map (map threshold)
             (iou (slice_to (r_boxes_ori r) (r_num_boxes r)
                     ++ slice_1_to (r_boxes_ori g) (r_num_boxes g)) [rb]))).
Proof.
  unfold training, merge, reader_get. intros -> -> ->. done.
Qed.

Lemma merge_cases self id rb m :
  merge self id rb = Ok m ->
  exists r, _image_features_reader self !! id = Some r /\
    ((training self = false) \/
     (training self = true /\
      exists g, _gt_image_features_reader self !! id = Some g)).
Proof.
  unfold merge, training. intros H.
  apply bind_Ok_inv in H as (r & Hr & H). apply reader_get_Ok in Hr.
  exists r. split; [done|].
  destruct (String.eqb (split self) "train"); [right | by left].
  apply bind_Ok_inv in H as (g & Hg & _). apply reader_get_Ok in Hg. eauto.
Qed.

Lemma merge_target self id rb m :
  merge self id rb = Ok m ->
  mix_target m =
    map (fun b => [label_of self (overlap b rb)]) (mix_boxes_ori m).
Proof.
  intros H. destruct (merge_cases _ _ _ _ H) as (r & Hr & [Ht | (Ht & g & Hg)]).
  - rewrite (merge_eval _ _ _ _ Ht Hr) in H. injection H as <-.
    unfold label_of. rewrite Ht. done.
  - rewrite (merge_train _ _ _ _ _ Ht Hr Hg) in H. injection H as <-.
    unfold label_of. rewrite Ht. simpl. unfold iou.
    rewrite map_map. done.
Qed.

Lemma merge_shape self id rb m :
  merge self id rb = Ok m ->
  well_shaped self id = true ->
  length (mix_boxes m) = length (mix_boxes_ori m) /\
  length (mix_features m) = length (mix_boxes_ori m) /\
  length (mix_target m) = length (mix_boxes_ori m) /\
  (-1 <= mix_num_boxes m <= Z.of_nat (max_region_num self))%Z /\
  (mix_num_boxes m <= Z.of_nat (length (mix_boxes_ori m)))%Z /\
  (mix_num_boxes m = -1 -> length (mix_boxes_ori m) = 0%nat)%Z.
Proof.
  intros H Hws. rewrite (merge_target _ _ _ _ H), length_map.
  unfold well_shaped, at_image in Hws.
  destruct (merge_cases _ _ _ _ H) as (r & Hr & [Ht | (Ht & g & Hg)]).
  - rewrite (merge_eval _ _ _ _ Ht Hr) in H. injection H as <-. simpl.
    rewrite Hr in Hws. apply andb_true_iff in Hws as [Hs _].
    apply shape_ok_spec in Hs as (? & ? & ?).
    rewrite !length_slice_to by lia. lia.
  - rewrite (merge_train _ _ _ _ _ Ht Hr Hg) in H. injection H as <-. simpl.
    rewrite Hr, Hg, Ht in Hws. simpl in Hws.
    apply andb_true_iff in Hws as [Hs Hsg].
    apply shape_ok_spec in Hs as (? & ? & ?).
    apply shape_ok_spec in Hsg as (? & ? & ?).
    rewrite !length_app, !length_slice_to, !length_slice_1_to by lia. lia.
Qed.

Lemma getitem_inv self index out :
  getitem self index = Ok out ->
  exists e m, Py.index (entries self) index = Ok e /\
    merge self (image_id e) (ref_box_of (refBox e)) = Ok m /\
    pack self e m = Ok out.
Proof.
  unfold getitem. intros H.
  apply bind_Ok_inv in H as (e & He & H).
  apply bind_Ok_inv in H as (m & Hm & H). eauto.
Qed.

Lemma getitem_pack self index e m :
  Py.index (entries self) index = Ok e ->
  merge self (image_id e) (ref_box_of (refBox e)) = Ok m ->
  getitem self index = pack self e m.
Proof. unfold getitem. intros -> . simpl. intros ->. done. Qed.

Lemma pack_inv self e m out :
  pack self e m = Ok out ->
  exists bp fp t,
    assign_to (zeros (max_region_num self) 5) (mix_num_boxes m)
      (slice_to (mix_boxes m) (mix_num_boxes m)) = Ok bp /\
    assign_to (zeros (max_region_num self) 2048) (mix_num_boxes m)
      (slice_to (mix_features m) (mix_num_boxes m)) = Ok fp /\
    assign_to (replicate (max_region_num self) [Fin 0]) (mix_num_boxes m)
      (mix_target m) = Ok t /\
    out = Example fp bp
            (make_image_mask (max_region_num self) (mix_num_boxes m))
            (token e) t (input_mask e) (segment_ids e)
            (zeros (max_region_num self) (_max_seq_length self))
            (image_id e).
Proof.
  unfold pack. intros H.
  apply bind_Ok_inv in H as (bp & Hbp & H).
  apply bind_Ok_inv in H as (fp & Hfp & H).
  apply bind_Ok_inv in H as (t & Ht & H).
  injection H as <-. by exists bp, fp, t.
Qed.

(** The mask of lines 198-200. *)
Lemma make_image_mask_spec R c :
  (c <= Z.of_nat R)%Z ->
  length (make_image_mask R c) = R /\
  make_image_mask R c =
    replicate (Z.to_nat c) 1%Q ++ replicate (R - Z.to_nat c) 0%Q /\
  (forall k, make_image_mask R c !! k = Some 1%Q <-> (k < Z.to_nat c)%nat) /\
  (forall k, make_image_mask R c !! k = Some 0%Q <->
             (Z.to_nat c <= k < R)%nat).
Proof.
  intros Hc. unfold make_image_mask. rewrite length_replicate.
  split; [|split; [done|split]].
  - rewrite length_app, !length_replicate. lia.
  - intros k. destruct (decide (k < Z.to_nat c)%nat) as [Hk | Hk].
    + rewrite lookup_app_l by (rewrite length_replicate; lia).
      rewrite lookup_replicate_2 by done. done.
    + rewrite lookup_app_r by (rewrite length_replicate; lia).
      split; [|lia]. intros H%lookup_replicate_1. by destruct H.
  - intros k. destruct (decide (k < Z.to_nat c)%nat) as [Hk | Hk].
    + rewrite lookup_app_l by (rewrite length_replicate; lia).
      rewrite lookup_replicate_2 by done. split; [done | lia].
    + rewrite lookup_app_r by (rewrite length_replicate; lia).
      rewrite length_replicate. split.
      * intros H%lookup_replicate_1. lia.
      * intros H. apply lookup_replicate_2. lia.
Qed.
End Fetch.

Section Packed.
Implicit Types (self : ReferExpressionDataset) (e : entry) (m : mixed)
  (out : example).

Lemma lookup_slice_to_lt {A} (l : list A) c k :
  (0 <= c)%Z -> (k < Z.to_nat c)%nat -> slice_to l c !! k = l !! k.
Proof. intros Hc Hk. rewrite slice_to_take by done. by apply lookup_take_lt. Qed.

(** What the three assignments of lines 205, 206 and 214 leave in the
    packed arrays of a returned example. *)
Lemma pack_spec self e m out :
  merge self (image_id e) (ref_box_of (refBox e)) = Ok m ->
  well_shaped self (image_id e) = true ->
  pack self e m = Ok out ->
  let R := max_region_num self in
  let c := Z.to_nat (mix_num_boxes m) in
  image_mask out = make_image_mask R (mix_num_boxes m) /\
  (length (features out) = R /\ length (spatials out) = R /\
   length (target out) = R) /\
  (forall k, (k < c)%nat ->
     features out !! k = mix_features m !! k /\
     spatials out !! k = mix_boxes m !! k /\
     target out !! k = mix_target m !! k) /\
  (forall k, (c <= k)%nat ->
     features out !! k = zeros R 2048 !! k /\
     spatials out !! k = zeros R 5 !! k /\
     target out !! k = replicate R [Fin 0] !! k).
Proof.
  intros Hm Hws Hp.
  destruct (merge_shape _ _ _ _ Hm Hws) as (Lb & Lf & Lt & Hc & Hrows & Hneg).
  apply pack_inv in Hp as (bp & fp & t & Hbp & Hfp & Ht & ->). simpl.
  assert (Hsl : forall {A} (l : list A),
             length l = length (mix_boxes_ori m) ->
             (mix_num_boxes m <= Z.of_nat (length (slice_to l (mix_num_boxes m))))%Z /\
             (mix_num_boxes m = -1 -> slice_to l (mix_num_boxes m) = [])%Z).
  { intros A l Hl. split.
    - destruct (Z.le_gt_cases 0 (mix_num_boxes m)).
      + rewrite length_slice_to by lia. lia.
      + lia.
    - intros Hn. apply nil_length_inv.
      rewrite slice_to_neg, length_take by lia. specialize (Hneg Hn). lia. }
  destruct (Hsl _ _ Lb) as [Hb1 Hb2]. destruct (Hsl _ _ Lf) as [Hf1 Hf2].
  apply assign_to_spec in Hbp as (Lbp & Bl & Bg);
    [|unfold zeros; rewrite length_replicate; lia|done|done].
  apply assign_to_spec in Hfp as (Lfp & Fl & Fg);
    [|unfold zeros; rewrite length_replicate; lia|done|done].
  apply assign_to_spec in Ht as (Ltt & Tl & Tg);
    [|rewrite length_replicate; lia|lia|].
  2:{ intros Hn. apply nil_length_inv. specialize (Hneg Hn). lia. }
  unfold zeros in Lbp, Lfp. rewrite length_replicate in Lbp.
  rewrite length_replicate in Lfp. rewrite length_replicate in Ltt.
  split; [done|]. split; [done|]. split.
  - intros k Hk. rewrite Fl, Bl, Tl by done.
    rewrite !lookup_slice_to_lt by lia. done.
  - intros k Hk. by rewrite Fg, Bg, Tg.
Qed.
End Packed.

(** * The claims about the per-index fetch *)

(** C5. Every returned example has a region mask of [max_region_num]
    entries whose ones are exactly the first [c] positions, [c] being the
    merged candidate count, and a target vector that is zero wherever the
    mask is zero. *)
Theorem region_mask_prefix_and_target_padding
    (self : ReferExpressionDataset) (index : Z) (e : entry) (m : mixed)
    (out : example) :
  Py.index (entries self) index = Ok e ->
  merge self (image_id e) (ref_box_of (refBox e)) = Ok m ->
  well_shaped self (image_id e) = true ->
  getitem self index = Ok out ->
  let c := Z.to_nat (mix_num_boxes m) in
  (c <= max_region_num self)%nat /\
  length (image_mask out) = max_region_num self /\
  image_mask out =
    replicate c 1%Q ++ replicate (max_region_num self - c) 0%Q /\
  length (target out) = max_region_num self /\
  forall k, image_mask out !! k = Some 0%Q -> target out !! k = Some [Fin 0].
Proof.
  intros He Hm Hws Hget c.
  rewrite (getitem_pack _ _ _ _ He Hm) in Hget.
  destruct (merge_shape _ _ _ _ Hm Hws) as (_ & _ & _ & Hc & _).
  destruct (pack_spec _ _ _ _ Hm Hws Hget) as (Hmask & (_ & _ & Lt) & _ & Hge).
  destruct (make_image_mask_spec (max_region_num self) (mix_num_boxes m))
    as (Lm & Heq & _ & H0); [lia|].
  rewrite Hmask. split; [subst c; lia|]. split; [done|]. split; [done|].
  split; [done|]. intros k Hk. apply H0 in Hk.
  destruct (Hge k) as (_ & _ & ->); [lia|]. apply lookup_replicate_2. lia.
Qed.

(** C6. In every returned example the packed features and spatials
    reproduce the merged source rows at every row index below the merged
    count and are all-zero rows from the merged count on. *)
Theorem packed_rows_copy_then_zero
    (self : ReferExpressionDataset) (index : Z) (e : entry) (m : mixed)
    (out : example) :
  Py.index (entries self) index = Ok e ->
  merge self (image_id e) (ref_box_of (refBox e)) = Ok m ->
  well_shaped self (image_id e) = true ->
  getitem self index = Ok out ->
  let c := Z.to_nat (mix_num_boxes m) in
  length (features out) = max_region_num self /\
  length (spatials out) = max_region_num self /\
  (forall k, (k < c)%nat ->
     exists f s, mix_features m !! k = Some f /\ mix_boxes m !! k = Some s /\
       features out !! k = Some f /\ spatials out !! k = Some s) /\
  (forall k, (c <= k < max_region_num self)%nat ->
     features out !! k = Some (replicate 2048 0%Q) /\
     spatials out !! k = Some (replicate 5 0%Q)).
Proof.
  intros He Hm Hws Hget c.
  rewrite (getitem_pack _ _ _ _ He Hm) in Hget.
  destruct (merge_shape _ _ _ _ Hm Hws) as (Lb & Lf & _ & Hc & Hrows & _).
  destruct (pack_spec _ _ _ _ Hm Hws Hget) as (_ & (LF & LS & _) & Hlt & Hge).
  split; [done|]. split; [done|]. split.
  - intros k Hk. destruct (Hlt k Hk) as (HF & HS & _).
    destruct (lookup_lt_is_Some_2 (mix_features m) k) as [f Hf]; [subst c; lia|].
    destruct (lookup_lt_is_Some_2 (mix_boxes m) k) as [s Hs]; [subst c; lia|].
    exists f, s. rewrite HF, HS. done.
  - intros k [Hk1 Hk2]. destruct (Hge k Hk1) as (-> & -> & _).
    unfold zeros. by rewrite !lookup_replicate_2.
Qed.

(** C2. Scenario C on the code: the fetch does not return. The overlaps of
    all 70 detector regions are assigned to the 60 selected target rows. *)
Theorem scenario_C_raises :
  training Scenario.C = false /\
  (exists r, _image_features_reader Scenario.C !! 7%Z = Some r /\
     r_num_boxes r = 70%Z /\ length (r_boxes_ori r) = 70%nat) /\
  max_region_num Scenario.C = 60%nat /\
  getitem Scenario.C 0 = Raise ValueError.
Proof.
  split; [done|]. split; [|split; [done|]].
  - eexists. split; [reflexivity|]. split; [done|]. vm_compute. done.
  - vm_compute. done.
Qed.

Section TargetRows.
Implicit Types (self : ReferExpressionDataset) (e : entry) (m : mixed).

(** Lines 205 and 206 cut their source to the merged count; line 214
    does not.  When the merged arrays have as many rows as the merged
    count the three assignments succeed. *)
Lemma pack_exact self e m :
  (0 <= mix_num_boxes m <= Z.of_nat (max_region_num self))%Z ->
  length (mix_boxes m) = Z.to_nat (mix_num_boxes m) ->
  length (mix_features m) = Z.to_nat (mix_num_boxes m) ->
  length (mix_target m) = Z.to_nat (mix_num_boxes m) ->
  exists out, pack self e m = Ok out /\
    image_mask out =
      make_image_mask (max_region_num self) (mix_num_boxes m).
Proof.
  intros Hc Lb Lf Lt. unfold pack.
  rewrite !assign_to_exact;
    rewrite ?length_slice_to; unfold zeros; rewrite ?length_replicate;
    try lia.
  simpl. eexists. split; [reflexivity | done].
Qed.

(** With more rows of overlaps than selected target rows, line 214
    raises. *)
Lemma pack_row_mismatch self e m :
  (0 <= mix_num_boxes m <= Z.of_nat (max_region_num self))%Z ->
  (Z.to_nat (mix_num_boxes m) <= length (mix_boxes m))%nat ->
  (Z.to_nat (mix_num_boxes m) <= length (mix_features m))%nat ->
  length (mix_target m) <> Z.to_nat (mix_num_boxes m) ->
  length (mix_target m) <> 1%nat ->
  pack self e m = Raise ValueError.
Proof.
  intros Hc Lb Lf Lt L1. unfold pack.
  rewrite (assign_to_exact (zeros _ 5));
    [|unfold zeros; rewrite length_replicate; lia
     |rewrite length_slice_to; lia].
  rewrite (assign_to_exact (zeros _ 2048));
    [|unfold zeros; rewrite length_replicate; lia
     |rewrite length_slice_to; lia].
  rewrite assign_to_mismatch; [done| |done|done].
  rewrite length_replicate. lia.
Qed.

(** Evaluation mode with more valid detector regions than capacity. *)
Lemma eval_overflow_raises self index e r :
  training self = false ->
  Py.index (entries self) index = Ok e ->
  _image_features_reader self !! image_id e = Some r ->
  shape_ok r = true ->
  (Z.of_nat (max_region_num self) < r_num_boxes r)%Z ->
  (2 <= r_num_boxes r)%Z ->
  getitem self index = Raise ValueError.
Proof.
  intros Ht He Hr Hs Hover H2. apply shape_ok_spec in Hs as (? & ? & ?).
  rewrite (getitem_pack _ _ _ _ He (merge_eval _ _ _ _ Ht Hr)).
  apply pack_row_mismatch; simpl; unfold iou;
    rewrite ?length_map, ?length_slice_to; lia.
Qed.

(** Training mode when the ground-truth store reports no valid region
    and the detector at least two. *)
Lemma train_no_gt_raises self index e r g :
  training self = true ->
  Py.index (entries self) index = Ok e ->
  _image_features_reader self !! image_id e = Some r ->
  _gt_image_features_reader self !! image_id e = Some g ->
  shape_ok r = true ->
  r_num_boxes g = 0%Z ->
  (2 <= r_num_boxes r)%Z ->
  getitem self index = Raise ValueError.
Proof.
  intros Ht He Hr Hg Hs Hg0 H2. apply shape_ok_spec in Hs as (? & ? & ?).
  rewrite (getitem_pack _ _ _ _ He (merge_train _ _ _ _ _ Ht Hr Hg)).
  apply pack_row_mismatch; simpl; unfold iou, slice_1_to;
    rewrite Hg0, ?length_map, ?length_app, ?length_drop, ?length_slice_to;
    simpl; lia.
Qed.
End TargetRows.

(** C3. In training mode the merged candidate list is all detector regions
    followed by the ground-truth-derived regions without the one at index
    0, the reported count is [min(detector_count + gt_count - 1,
    max_region_num)], and when that sum fits the capacity the fetch returns
    a mask with that many ones. *)
Theorem training_merge_order_and_count
    (self : ReferExpressionDataset) (index : Z) (e : entry)
    (r g : regions) :
  split self = "train"%string ->
  Py.index (entries self) index = Ok e ->
  _image_features_reader self !! image_id e = Some r ->
  _gt_image_features_reader self !! image_id e = Some g ->
  shape_ok r = true ->
  shape_ok g = true ->
  let d := Z.to_nat (r_num_boxes r) in
  let n := Z.to_nat (r_num_boxes g) in
  let R := max_region_num self in
  exists m,
    merge self (image_id e) (ref_box_of (refBox e)) = Ok m /\
    mix_boxes_ori m = take d (r_boxes_ori r) ++ drop 1 (take n (r_boxes_ori g)) /\
    mix_boxes m = take d (r_boxes r) ++ drop 1 (take n (r_boxes g)) /\
    mix_features m = take d (r_features r) ++ drop 1 (take n (r_features g)) /\
    mix_num_boxes m = Z.min (r_num_boxes r + r_num_boxes g - 1) (Z.of_nat R) /\
    ((1 <= r_num_boxes g)%Z ->
     (r_num_boxes r + r_num_boxes g - 1 <= Z.of_nat R)%Z ->
     exists out, getitem self index = Ok out /\
       image_mask out =
         replicate (d + n - 1) 1%Q ++ replicate (R - (d + n - 1)) 0%Q).
Proof.
  intros Hsplit He Hr Hg Hs Hsg d n R.
  assert (Ht : training self = true) by (unfold training; by rewrite Hsplit).
  pose proof (merge_train _ _ (ref_box_of (refBox e)) _ _ Ht Hr Hg) as Hm.
  apply shape_ok_spec in Hs as (? & ? & ?).
  apply shape_ok_spec in Hsg as (? & ? & ?).
  eexists. split; [exact Hm|]. simpl. unfold slice_1_to.
  rewrite !slice_to_take by lia.
  split; [done|]. split; [done|]. split; [done|]. split; [done|].
  intros Hg1 Hfit. rewrite (getitem_pack _ _ _ _ He Hm).
  edestruct (pack_exact self e) as (out & Hp & Hmask);
    [| | | | exists out; split; [exact Hp|]].
  - simpl. lia.
  - simpl. unfold slice_1_to.
    rewrite length_app, length_drop, !length_slice_to by lia. lia.
  - simpl. unfold slice_1_to.
    rewrite length_app, length_drop, !length_slice_to by lia. lia.
  - simpl. unfold iou, slice_1_to.
    rewrite !length_map, length_app, length_drop, !length_slice_to by lia.
    lia.
  - rewrite Hmask. simpl. unfold make_image_mask.
    rewrite length_replicate.
    f_equal; f_equal; lia.
Qed.

(** Training mode when the ground-truth store reports a valid count of 0:
    the ground-truth slice from index 1 is empty, the merged list is the
    [d] detector regions and the reported count is
    [min(d - 1, max_region_num)]; for [1 <= d <= max_region_num] that is
    [d - 1], and the region mask of that count is 0 at the position of the
    last detector region. *)
Lemma training_without_ground_truth_count
    (self : ReferExpressionDataset) (index : Z) (e : entry)
    (r g : regions) :
  split self = "train"%string ->
  Py.index (entries self) index = Ok e ->
  _image_features_reader self !! image_id e = Some r ->
  _gt_image_features_reader self !! image_id e = Some g ->
  shape_ok r = true ->
  r_num_boxes g = 0%Z ->
  let d := Z.to_nat (r_num_boxes r) in
  let R := max_region_num self in
  slice_1_to (r_boxes_ori g) (r_num_boxes g) = [] /\
  exists m,
    merge self (image_id e) (ref_box_of (refBox e)) = Ok m /\
    mix_boxes_ori m = take d (r_boxes_ori r) /\
    length (mix_boxes_ori m) = d /\
    mix_num_boxes m = Z.min (r_num_boxes r - 1) (Z.of_nat R) /\
    ((1 <= d <= R)%nat ->
     mix_num_boxes m = (Z.of_nat d - 1)%Z /\
     make_image_mask R (mix_num_boxes m) !! (d - 1)%nat = Some 0%Q) /\
    (forall out, getitem self index = Ok out ->
       image_mask out = make_image_mask R (mix_num_boxes m)).
Proof.
  intros Hsplit He Hr Hg Hs Hg0 d R.
  assert (Ht : training self = true) by (unfold training; by rewrite Hsplit).
  pose proof (merge_train _ _ (ref_box_of (refBox e)) _ _ Ht Hr Hg) as Hm.
  apply shape_ok_spec in Hs as (? & ? & ?).
  rewrite Hg0 in *. split; [done|].
  eexists. split; [exact Hm|]. simpl. unfold slice_1_to. simpl.
  rewrite app_nil_r. rewrite slice_to_take by lia.
  split; [done|]. split; [rewrite length_take; lia|].
  split; [f_equal; lia|]. split.
  - intros Hd. split; [lia|].
    apply make_image_mask_spec; lia.
  - intros out Hout. rewrite (getitem_pack _ _ _ _ He Hm) in Hout.
    apply pack_inv in Hout as (bp & fp & t & _ & _ & _ & ->). done.
Qed.

(** * The claims about [tokenize] *)

Section Tokenize.
Implicit Types (self : ReferExpressionDataset) (a : annotation) (e : entry)
  (ids : list Z).

Lemma mapM_Raise {A B} (f : A -> result B) l x err :
  x ∈ l -> f x = Raise err -> exists err', mapM f l = Raise err'.
Proof.
  intros Hx Hf. induction l as [|y l IH]; [by apply elem_of_nil in Hx|].
  simpl. destruct (f y) as [b|e'] eqn:Ey; [|by eexists].
  apply elem_of_cons in Hx as [-> | Hx]; [congruence|].
  destruct (IH Hx) as [e' ->]. by eexists.
Qed.

Lemma vocab_id_total (vocab : gmap string Z) :
  is_Some (vocab !! "[UNK]"%string) ->
  forall w, exists i, vocab_id vocab w = Ok i.
Proof.
  intros [u Hu] w. unfold vocab_id. rewrite Hu.
  destruct (vocab !! w); eauto.
Qed.

(** Lines 133-143 in closed form. *)
Lemma pack_tokens_spec L pad ids :
  pack_tokens L pad ids =
    (take L ids ++ replicate (L - length ids) pad,
     replicate (L `min` length ids) 1%Z ++ replicate (L - length ids) pad,
     replicate (L `min` length ids) 0%Z ++ replicate (L - length ids) pad).
Proof.
  unfold pack_tokens. rewrite length_take.
  destruct (decide (L `min` length ids < L)%nat) as [Hlt | Hge].
  - replace (L - L `min` length ids)%nat with (L - length ids)%nat by lia.
    done.
  - replace (L - length ids)%nat with 0%nat by lia. simpl.
    by rewrite !app_nil_r.
Qed.

Lemma pack_tokens_length L pad ids :
  length (pack_tokens L pad ids).1.1 = L /\
  length (pack_tokens L pad ids).1.2 = L /\
  length (pack_tokens L pad ids).2 = L.
Proof.
  rewrite pack_tokens_spec. simpl.
  rewrite !length_app, length_take, !length_replicate. lia.
Qed.

Lemma store_tokens_Ok L a tokens mask seg :
  length tokens = L ->
  store_tokens L a (tokens, mask, seg) =
    Ok (Entry (a_caption a) (a_sent_id a) (a_image_id a) (a_refBox a)
          (a_ref_id a) tokens mask seg).
Proof.
  intros H. unfold store_tokens, assert_eq. by rewrite decide_True.
Qed.

Lemma tokenize_entry_inv self a e :
  tokenize_entry self a = Ok e ->
  exists ids,
    mapM (vocab_id (_vocab self)) (marked self a) = Ok ids /\
    length ids = (2 + length (_tokenizer self (a_caption a)))%nat /\
    token e = (pack_tokens (_max_seq_length self) (_padding_index self) ids).1.1 /\
    input_mask e = (pack_tokens (_max_seq_length self) (_padding_index self) ids).1.2 /\
    segment_ids e = (pack_tokens (_max_seq_length self) (_padding_index self) ids).2.
Proof.
  unfold tokenize_entry. intros H.
  apply bind_Ok_inv in H as (ids & Hids & H). exists ids.
  split; [exact Hids|]. split.
  { apply mapM_Ok_length in Hids. rewrite Hids.
    rewrite !length_app. simpl. lia. }
  destruct (pack_tokens _ _ ids) as [[t im] s] eqn:E.
  pose proof (pack_tokens_length (_max_seq_length self) (_padding_index self) ids) as (Lt & _).
  rewrite E in Lt. simpl in Lt.
  rewrite store_tokens_Ok in H by done. by injection H as <-.
Qed.

End Tokenize.

(** C9. When the id sequence of a caption, markers included, has
    [t < max_seq_length] elements, the positions [t .. max_seq_length - 1]
    of the sequence mask and of the segment ids hold [padding_index]; the
    positions before hold 1 and 0.  So the mask is 0 on the padding exactly
    when [padding_index] is 0. *)
Theorem padded_tail_holds_padding_index
    (self : ReferExpressionDataset) (a : annotation) (e : entry) :
  tokenize_entry self a = Ok e ->
  let t := (2 + length (_tokenizer self (a_caption a)))%nat in
  (t < _max_seq_length self)%nat ->
  (forall i, (t <= i < _max_seq_length self)%nat ->
     input_mask e !! i = Some (_padding_index self) /\
     segment_ids e !! i = Some (_padding_index self) /\
     (input_mask e !! i = Some 0%Z <-> _padding_index self = 0%Z)) /\
  (forall i, (i < t)%nat ->
     input_mask e !! i = Some 1%Z /\ segment_ids e !! i = Some 0%Z).
Proof.
  intros He t Ht.
  apply tokenize_entry_inv in He as (ids & _ & Hlen & _ & -> & ->).
  rewrite pack_tokens_spec. simpl. fold t in Hlen.
  replace (_max_seq_length self `min` length ids)%nat with t by lia.
  rewrite Hlen. split.
  - intros i Hi.
    assert (Hpad : forall (x : Z),
              (replicate t x ++ replicate (_max_seq_length self - t)
                 (_padding_index self)) !! i = Some (_padding_index self)).
    { intros x. rewrite lookup_app_r by (rewrite length_replicate; lia).
      apply lookup_replicate_2. rewrite length_replicate. lia. }
    rewrite !Hpad. split; [done|]. split; [done|].
    split; [by intros [= ->] | by intros ->].
  - intros i Hi.
    rewrite !lookup_app_l by (rewrite length_replicate; lia).
    by rewrite !lookup_replicate_2.
Qed.

(** * Concrete instances *)

(** Scenario A: the gold box has IoU 1 with the target, a far box 0. *)
Lemma scenario_A :
  exists q1 q0,
    overlap Scenario.gold Scenario.target_box = Fin q1 /\ (q1 == 1)%Q /\
    overlap Scenario.far Scenario.target_box = Fin q0 /\ (q0 == 0)%Q.
Proof. eexists. eexists. repeat split; by_computation. Qed.

(** Two boxes with [x_max = x_min - 1] have a zero union: [0/0]. *)
Lemma zero_union_is_nan : overlap (Box 1 0 0 0) (Box 1 0 0 0) = NaN.
Proof. by_computation. Qed.


Lemma region_mask_prefix_and_target_padding_witness :
  (Z.to_nat (mix_num_boxes (Scenario.merged Scenario.small_train))
     <= max_region_num Scenario.small_train)%nat /\
  length (image_mask (Scenario.fetched Scenario.small_train))
    = max_region_num Scenario.small_train /\
  image_mask (Scenario.fetched Scenario.small_train) =
    replicate (Z.to_nat (mix_num_boxes (Scenario.merged Scenario.small_train)))
      1%Q
    ++ replicate
         (max_region_num Scenario.small_train
          - Z.to_nat (mix_num_boxes (Scenario.merged Scenario.small_train)))
         0%Q /\
  length (target (Scenario.fetched Scenario.small_train))
    = max_region_num Scenario.small_train /\
  forall k,
    image_mask (Scenario.fetched Scenario.small_train) !! k = Some 0%Q ->
    target (Scenario.fetched Scenario.small_train) !! k = Some [Fin 0].
Proof.
  apply (region_mask_prefix_and_target_padding Scenario.small_train 0
           (Scenario.the_entry Scenario.small_train)
           (Scenario.merged Scenario.small_train)
           (Scenario.fetched Scenario.small_train));
    by_computation.
Defined.

Lemma packed_rows_copy_then_zero_witness :
  length (features (Scenario.fetched Scenario.small_train))
    = max_region_num Scenario.small_train /\
  length (spatials (Scenario.fetched Scenario.small_train))
    = max_region_num Scenario.small_train /\
  (forall k,
     (k < Z.to_nat (mix_num_boxes (Scenario.merged Scenario.small_train)))%nat ->
     exists f s,
       mix_features (Scenario.merged Scenario.small_train) !! k = Some f /\
       mix_boxes (Scenario.merged Scenario.small_train) !! k = Some s /\
       features (Scenario.fetched Scenario.small_train) !! k = Some f /\
       spatials (Scenario.fetched Scenario.small_train) !! k = Some s) /\
  (forall k,
     (Z.to_nat (mix_num_boxes (Scenario.merged Scenario.small_train)) <= k
      < max_region_num Scenario.small_train)%nat ->
     features (Scenario.fetched Scenario.small_train) !! k
       = Some (replicate 2048 0%Q) /\
     spatials (Scenario.fetched Scenario.small_train) !! k
       = Some (replicate 5 0%Q)).
Proof.
  apply (packed_rows_copy_then_zero Scenario.small_train 0
           (Scenario.the_entry Scenario.small_train)
           (Scenario.merged Scenario.small_train)
           (Scenario.fetched Scenario.small_train));
    by_computation.
Defined.

(** Scenario B: merged count 7, a mask with 7 ones. *)
Lemma scenario_B_witness :
  exists out,
    getitem Scenario.B 0 = Ok out /\
    image_mask out = replicate 7 1%Q ++ replicate 53 0%Q.
Proof.
  destruct (training_merge_order_and_count Scenario.B 0
              (Scenario.the_entry Scenario.B)
              (Scenario.store_of [Scenario.gold; Scenario.far; Scenario.loose] 3)
              (Scenario.store_of (replicate 5 Scenario.gold) 5))
    as (m & _ & _ & _ & _ & _ & Hret);
    [reflexivity | reflexivity | reflexivity | reflexivity
    | by_computation | by_computation |].
  apply Hret; simpl; lia.
Defined.

(** C10. On [Scenario.no_gt] (training, two detector regions, a
    ground-truth count of 0) the merged count is 1 and the mask of that
    count is 0 at the last detector region, but the fetch raises: two rows
    of overlaps are assigned to the one selected target row, so no label is
    returned. *)
Theorem no_gt_fetch_raises :
  training Scenario.no_gt = true /\
  (exists g, _gt_image_features_reader Scenario.no_gt !! 7%Z = Some g /\
     r_num_boxes g = 0%Z) /\
  length (mix_boxes_ori (Scenario.merged Scenario.no_gt)) = 2%nat /\
  mix_num_boxes (Scenario.merged Scenario.no_gt) = 1%Z /\
  make_image_mask 60 1 !! 1%nat = Some 0%Q /\
  length (mix_target (Scenario.merged Scenario.no_gt)) = 2%nat /\
  getitem Scenario.no_gt 0 = Raise ValueError.
Proof.
  split; [done|]. split; [eexists; split; reflexivity|].
  repeat split; by_computation.
Qed.

(** With a single detector region the same input shape returns: the one
    row of overlaps is broadcast to the empty selection. *)
Lemma no_gt_single_returns :
  getitem Scenario.no_gt_single 0 = Ok (Scenario.fetched Scenario.no_gt_single) /\
  image_mask (Scenario.fetched Scenario.no_gt_single) = [0; 0; 0]%Q /\
  target (Scenario.fetched Scenario.no_gt_single) = [[Fin 0]; [Fin 0]; [Fin 0]].
Proof. repeat split; by_computation. Qed.

Lemma training_without_ground_truth_count_witness :
  exists m,
    merge Scenario.no_gt 7 Scenario.target_box = Ok m /\
    length (mix_boxes_ori m) = 2%nat /\
    mix_num_boxes m = 1%Z /\
    make_image_mask 60 (mix_num_boxes m) !! 1%nat = Some 0%Q.
Proof.
  destruct (training_without_ground_truth_count Scenario.no_gt 0
              (Scenario.the_entry Scenario.no_gt)
              (Scenario.store_of [Scenario.gold; Scenario.far] 2)
              (Scenario.store_of [Scenario.gold] 0))
    as (_ & m & Hm & _ & Hlen & _ & Hmask & _);
    [reflexivity | reflexivity | reflexivity | reflexivity
    | by_computation | reflexivity |].
  exists m. split; [exact Hm|]. split; [exact Hlen|].
  apply Hmask. simpl. lia.
Defined.

(** C4 fails on a single-pixel box paired with itself: it is degenerate,
    and its intersection is 1, not 0. *)
Lemma degenerate_box_intersects_itself :
  ~ (forall a g, degenerate a ->
       (iw a g * ih a g == 0)%Q /\ (0 < ua a g)%Q).
Proof.
  intros H. destruct (H (Box 0 0 0 0) (Box 0 0 0 0)) as [Hi _].
  - split; [split; simpl; lra | left; reflexivity].
  - vm_compute in Hi. discriminate.
Qed.

Lemma degenerate_box_union_positive_witness :
  (0 < ua (Box 0 0 0 5) (Box 0 0 10 10))%Q /\
  (exists q, overlap (Box 0 0 0 5) (Box 0 0 10 10) = Fin q).
Proof.
  destruct (degenerate_box_union_positive (Box 0 0 0 5) (Box 0 0 10 10))
    as (Hu & Hq & _).
  - split; [split; simpl; lra | left; reflexivity].
  - split; simpl; lra.
  - split; [exact Hu | exact Hq].
Defined.

(** A zero union needs a box that is not well-formed: a degenerate box
    paired with a box of [x_max = x_min - 3] has union 0 and IoU [nan]. *)
Lemma malformed_box_zero_union :
  degenerate (Box 0 0 0 1) /\
  (ua (Box 0 0 0 1) (Box 0 0 (-3) 0) == 0)%Q /\
  overlap (Box 0 0 0 1) (Box 0 0 (-3) 0) = NaN.
Proof.
  split; [split; [split; simpl; lra | left; reflexivity]|].
  split; by_computation.
Qed.

(** In float32/float64 arithmetic the IoU of a degenerate float32 box with
    the target box of the same corners is above 1: the float32 area of the
    box is rounded below the float64 intersection. *)
Lemma float_degenerate_iou_above_one :
  degenerate (Box 0 0 0 (16515073 # 262144)) /\
  overlap_with IEEE.numpy (Box 0 0 0 (16515073 # 262144))
    (Box 0 0 0 (16515073 # 262144)) = Fin (4503599895805952 # 4503599627370496).
Proof.
  split; [split; [split; simpl; lra | left; reflexivity]|]. by_computation.
Qed.

(** C7 fails on two rectangles half a pixel apart: they share no point,
    and their IoU is 44/1848. *)
Lemma disjoint_boxes_positive_iou :
  ~ (forall a g, wf_box a -> wf_box g -> disjoint a g ->
       exists q, overlap a g = Fin q /\ (q == 0)%Q).
Proof.
  intros H.
  destruct (H (Box 0 0 10 10) (Box (21 # 2) 0 20 10)) as (q & Ho & Hq).
  - split; simpl; lra.
  - split; simpl; lra.
  - left. simpl. lra.
  - vm_compute in Ho. injection Ho as <-. vm_compute in Hq. discriminate.
Qed.

Lemma separated_boxes_zero_iou_witness :
  exists q, overlap Scenario.gold Scenario.far = Fin q /\ (q == 0)%Q.
Proof.
  destruct (separated_boxes_zero_iou Scenario.gold Scenario.far)
    as (_ & _ & _ & Hq).
  - split; simpl; lra.
  - split; simpl; lra.
  - left. simpl. lra.
  - exact Hq.
Defined.

Lemma padded_tail_holds_padding_index_witness :
  input_mask Scenario.packed_entry !! 7%nat = Some 0%Z /\
  segment_ids Scenario.packed_entry !! 7%nat = Some 0%Z /\
  (input_mask Scenario.packed_entry !! 7%nat = Some 0%Z <-> 0%Z = 0%Z).
Proof.
  apply (padded_tail_holds_padding_index Scenario.B Scenario.red_car
           Scenario.packed_entry);
    [by_computation | simpl; lia | simpl; lia].
Defined.

(** * Further properties of the overlap engine *)

Section OverlapMore.
Local Open Scope Q_scope.

Lemma clip_eq w w' : w == w' -> clip w == clip w'.
Proof.
  intros Hw.
  destruct (clip_spec w) as [[? ->] | [? ->]];
    destruct (clip_spec w') as [[? ->] | [? ->]]; lra.
Qed.

Lemma iw_sym a g : iw a g == iw g a.
Proof.
  unfold iw. apply clip_eq.
  pose proof (Q.min_comm (x_max a) (x_max g)).
  pose proof (Q.max_comm (x_min a) (x_min g)). lra.
Qed.

Lemma ih_sym a g : ih a g == ih g a.
Proof.
  unfold ih. apply clip_eq.
  pose proof (Q.min_comm (y_max a) (y_max g)).
  pose proof (Q.max_comm (y_min a) (y_min g)). lra.
Qed.

Lemma inter_sym a g : iw a g * ih a g == iw g a * ih g a.
Proof. by rewrite (iw_sym a g), (ih_sym a g). Qed.

Lemma ua_sym a g : ua a g == ua g a.
Proof. unfold ua. rewrite (inter_sym a g). lra. Qed.

Lemma Qeq_bool_eq x y x' y' :
  x == x' -> y == y' -> Qeq_bool x y = Qeq_bool x' y'.
Proof.
  intros Hx Hy. destruct (Qeq_bool x y) eqn:E, (Qeq_bool x' y') eqn:E';
    try done.
  - apply Qeq_bool_iff in E. apply Qeq_bool_neq in E'. lra.
  - apply Qeq_bool_iff in E'. apply Qeq_bool_neq in E. lra.
Qed.

Lemma Qltb_eq x y x' y' : x == x' -> y == y' -> Qltb x y = Qltb x' y'.
Proof.
  intros Hx Hy. destruct (Qltb x y) eqn:E, (Qltb x' y') eqn:E'; try done.
  - apply Qltb_lt in E. apply Qltb_ge in E'. lra.
  - apply Qltb_lt in E'. apply Qltb_ge in E. lra.
Qed.

Lemma fdiv_feq n d n' d' : n == n' -> d == d' -> feq (fdiv n d) (fdiv n' d').
Proof.
  intros Hn Hd. unfold fdiv.
  rewrite (Qeq_bool_eq d 0 d' 0), (Qeq_bool_eq n 0 n' 0),
    (Qltb_eq n 0 n' 0) by (done || reflexivity).
  destruct (Qeq_bool d' 0) eqn:E.
  - destruct (Qeq_bool n' 0); [done|]. by destruct (Qltb n' 0).
  - simpl. by rewrite Hn, Hd.
Qed.

End OverlapMore.

(** The overlap does not depend on which box is the anchor. *)
Theorem overlap_symmetric (a g : box) : feq (overlap a g) (overlap g a).
Proof. apply fdiv_feq; [apply inter_sym | apply ua_sym]. Qed.

(** * Further properties of [tokenize] *)

Section TokenizeMore.
Implicit Types (self : ReferExpressionDataset) (a : annotation) (e : entry).

Lemma mapM_Ok_Forall2 {A B} (f : A -> result B) l l' :
  mapM f l = Ok l' -> Forall2 (fun x y => f x = Ok y) l l'.
Proof.
  revert l'. induction l as [|x l IH]; intros l' H.
  - injection H as <-. constructor.
  - simpl in H. apply bind_Ok_inv in H as (y & Hy & H).
    apply bind_Ok_inv in H as (k & Hk & H). injection H as <-.
    constructor; [done | by apply IH].
Qed.

Lemma mapM_Raise_inv {A B} (f : A -> result B) l err :
  mapM f l = Raise err -> exists x, x ∈ l /\ f x = Raise err.
Proof.
  induction l as [|x l IH]; [done|]. simpl. intros H.
  destruct (f x) as [y|e'] eqn:Ex.
  - simpl in H. destruct (mapM f l) as [k|e''] eqn:El; [done|].
    simpl in H. injection H as ->.
    destruct (IH eq_refl) as (x' & Hx' & Hf). exists x'.
    split; [by apply elem_of_cons; right | done].
  - simpl in H. injection H as ->. exists x.
    split; [by apply elem_of_cons; left | done].
Qed.

Lemma mapM_first_Raise {A B} (f : A -> result B) l err :
  (forall x err', x ∈ l -> f x = Raise err' -> err' = err) ->
  (exists x, x ∈ l /\ f x = Raise err) ->
  mapM f l = Raise err.
Proof.
  intros Hall (x & Hx & Hf).
  destruct (mapM_Raise f l x err Hx Hf) as [err' Herr'].
  destruct (mapM_Raise_inv f l err' Herr') as (x' & Hx' & Hf').
  by rewrite <- (Hall x' err' Hx' Hf').
Qed.

Lemma vocab_id_Raise (vocab : gmap string Z) w err :
  vocab_id vocab w = Raise err ->
  err = KeyError /\ vocab !! w = None /\ vocab !! "[UNK]"%string = None.
Proof.
  unfold vocab_id. destruct (vocab !! w); [done|].
  destruct (vocab !! "[UNK]"%string); [done|]. by intros [= <-].
Qed.

Lemma tokenize_entry_fields self a e :
  tokenize_entry self a = Ok e ->
  caption e = a_caption a /\ sent_id e = a_sent_id a /\
  image_id e = a_image_id a /\ refBox e = a_refBox a /\
  ref_id e = a_ref_id a.
Proof.
  unfold tokenize_entry. intros H.
  apply bind_Ok_inv in H as (ids & _ & H).
  destruct (pack_tokens _ _ ids) as [[t im] s].
  unfold store_tokens in H. apply bind_Ok_inv in H as (_ & _ & H).
  by injection H as <-.
Qed.
End TokenizeMore.

(** A caption whose id sequence, markers included, fits [max_seq_length]
    is stored in full at the front of the token vector and the padding
    follows it: cutting the vector at the sequence length gives the ids
    back. *)
Theorem padding_trails_the_tokens
    (self : ReferExpressionDataset) (a : annotation) (e : entry) :
  tokenize_entry self a = Ok e ->
  let t := (2 + length (_tokenizer self (a_caption a)))%nat in
  (t <= _max_seq_length self)%nat ->
  exists ids,
    mapM (vocab_id (_vocab self)) (marked self a) = Ok ids /\
    length ids = t /\
    token e = ids ++ replicate (_max_seq_length self - t) (_padding_index self) /\
    take t (token e) = ids /\
    drop t (token e)
      = replicate (_max_seq_length self - t) (_padding_index self).
Proof.
  intros He t Ht.
  apply tokenize_entry_inv in He as (ids & Hids & Hlen & -> & _).
  exists ids. split; [done|]. split; [done|].
  rewrite pack_tokens_spec. simpl. fold t in Hlen.
  rewrite take_ge by lia. rewrite Hlen.
  split; [done|]. split.
  - by rewrite take_app_length'.
  - by rewrite drop_app_length'.
Qed.

(** A caption whose id sequence is at least [max_seq_length] long keeps
    its first [max_seq_length] ids only: no padding is added, the mask is
    all ones and the segment ids all zeros. *)
Theorem long_caption_is_truncated
    (self : ReferExpressionDataset) (a : annotation) (e : entry) :
  tokenize_entry self a = Ok e ->
  (_max_seq_length self <= 2 + length (_tokenizer self (a_caption a)))%nat ->
  exists ids,
    mapM (vocab_id (_vocab self)) (marked self a) = Ok ids /\
    token e = take (_max_seq_length self) ids /\
    input_mask e = replicate (_max_seq_length self) 1%Z /\
    segment_ids e = replicate (_max_seq_length self) 0%Z.
Proof.
  intros He Hlong.
  apply tokenize_entry_inv in He as (ids & Hids & Hlen & -> & -> & ->).
  exists ids. split; [done|]. rewrite pack_tokens_spec. simpl.
  replace (_max_seq_length self - length ids)%nat with 0%nat by lia.
  replace (_max_seq_length self `min` length ids)%nat
    with (_max_seq_length self) by lia.
  simpl. by rewrite !app_nil_r.
Qed.

(** When the sequence fits, the token vector starts with the id of
    ["[CLS]"] and the id of ["[SEP]"] closes the sequence, right before
    the padding. *)
Theorem markers_frame_the_sequence
    (self : ReferExpressionDataset) (a : annotation) (e : entry) :
  tokenize_entry self a = Ok e ->
  let t := (2 + length (_tokenizer self (a_caption a)))%nat in
  (t <= _max_seq_length self)%nat ->
  exists cls sep,
    vocab_id (_vocab self) "[CLS]" = Ok cls /\
    vocab_id (_vocab self) "[SEP]" = Ok sep /\
    token e !! 0%nat = Some cls /\
    token e !! (t - 1)%nat = Some sep.
Proof.
  intros He t Ht.
  apply tokenize_entry_inv in He as (ids & Hids & Hlen & -> & _).
  apply mapM_Ok_Forall2 in Hids.
  assert (H0 : marked self a !! 0%nat = Some "[CLS]"%string) by done.
  assert (H1 : marked self a !! (t - 1)%nat = Some "[SEP]"%string).
  { assert (Hidx : (t - 1)%nat = S (length (_tokenizer self (a_caption a))))
      by lia.
    rewrite Hidx. unfold marked. simpl.
    rewrite lookup_app_r by lia. by rewrite Nat.sub_diag. }
  destruct (Forall2_lookup_l _ _ _ _ _ Hids H0) as (cls & Hc & Hcls).
  destruct (Forall2_lookup_l _ _ _ _ _ Hids H1) as (sep & Hs & Hsep).
  exists cls, sep. split; [done|]. split; [done|].
  rewrite pack_tokens_spec. simpl. fold t in Hlen.
  rewrite take_ge by lia.
  rewrite !lookup_app_l by lia. done.
Qed.

(** [tokenize] returns one entry per annotation, in order, and each entry
    keeps the caption, ids and target box of its annotation. *)
Theorem tokenize_keeps_annotations
    (self : ReferExpressionDataset) (anns : list annotation)
    (es : list entry) :
  tokenize self anns = Ok es ->
  Forall2 (fun a e =>
             caption e = a_caption a /\ sent_id e = a_sent_id a /\
             image_id e = a_image_id a /\ refBox e = a_refBox a /\
             ref_id e = a_ref_id a) anns es.
Proof.
  intros H. apply mapM_Ok_Forall2 in H.
  eapply Forall2_impl; [exact H|]. intros a e. apply tokenize_entry_fields.
Qed.

(** * Properties of [_load_annotations] and [__len__] *)

Section LoadAnnotations.
Implicit Types (refer : REFER) (ids : list Z) (anns : list annotation).

Lemma load_ref_Ok refer id l :
  load_ref refer id = Ok l <->
  exists r b, Refs refer !! id = Some r /\
    getRefBox refer (ref_ref_id r) = Ok b /\ l = annotations_of r b.
Proof.
  unfold load_ref. destruct (Refs refer !! id) as [r|]; split.
  - intros H. apply bind_Ok_inv in H as (b & Hb & H). injection H as <-.
    by exists r, b.
  - intros (r' & b & [= <-] & Hb & ->). rewrite Hb. done.
  - done.
  - by intros (r' & b & ? & _).
Qed.

Lemma mapM_Ok_of_Forall2 {A B} (f : A -> result B) l l' :
  Forall2 (fun x y => f x = Ok y) l l' -> mapM f l = Ok l'.
Proof.
  induction 1 as [|x y l l' Hxy _ IH]; [done|].
  simpl. rewrite Hxy. simpl. rewrite IH. done.
Qed.

Lemma mapM_app_Ok {A B} (f : A -> result B) l1 l2 k1 k2 :
  mapM f l1 = Ok k1 -> mapM f l2 = Ok k2 ->
  mapM f (l1 ++ l2) = Ok (k1 ++ k2).
Proof.
  intros H1 H2. apply mapM_Ok_of_Forall2.
  apply Forall2_app; by apply mapM_Ok_Forall2.
Qed.

Lemma load_annotations_inv refer ids anns :
  _load_annotations refer ids = Ok anns ->
  exists per_ref,
    Forall2 (fun id l => load_ref refer id = Ok l) ids per_ref /\
    anns = concat per_ref.
Proof.
  unfold _load_annotations. intros H.
  apply bind_Ok_inv in H as (per_ref & Hm & H). injection H as <-.
  exists per_ref. split; [by apply mapM_Ok_Forall2 | done].
Qed.

Lemma elem_of_concat {A} (x : A) (ls : list (list A)) :
  x ∈ concat ls -> exists l, x ∈ l /\ l ∈ ls.
Proof.
  induction ls as [|l ls IH]; simpl; [by intros ?%elem_of_nil|].
  intros [H | H]%elem_of_app.
  - exists l. split; [done | by apply elem_of_cons; left].
  - destruct (IH H) as (l' & ? & ?). exists l'.
    split; [done | by apply elem_of_cons; right].
Qed.

Lemma length_annotations_of r b :
  length (annotations_of r b)
  = (length (sentences r) `min` length (sent_ids r))%nat.
Proof. unfold annotations_of. by rewrite length_map, length_zip. Qed.
End LoadAnnotations.

(** [_load_annotations] returns exactly when every reference id is a key
    of [Refs] and the box of each reference can be fetched; otherwise it
    raises, and the error of a missing key is [KeyError] when no box
    lookup fails. *)
Theorem load_annotations_returns_iff (refer : REFER) (ids : list Z) :
  ((exists anns, _load_annotations refer ids = Ok anns) <->
   Forall (fun id => exists r b, Refs refer !! id = Some r /\
                       getRefBox refer (ref_ref_id r) = Ok b) ids) /\
  ((forall i, exists b, getRefBox refer i = Ok b) ->
   forall id, id ∈ ids -> Refs refer !! id = None ->
   _load_annotations refer ids = Raise KeyError).
Proof.
  split; [split|].
  - intros (anns & H). apply load_annotations_inv in H as (per & HF & _).
    induction HF as [|id l ids per Hl _ IH]; constructor; [|done].
    apply load_ref_Ok in Hl as (r & b & ? & ? & _). eauto.
  - intros HF.
    assert (exists per, Forall2 (fun id l => load_ref refer id = Ok l) ids per)
      as [per Hper].
    { induction HF as [|id ids (r & b & Hr & Hb) _ [per IH]].
      - exists []. constructor.
      - exists (annotations_of r b :: per). constructor; [|done].
        apply load_ref_Ok. by exists r, b. }
    exists (concat per). unfold _load_annotations.
    by rewrite (mapM_Ok_of_Forall2 _ _ _ Hper).
  - intros Htotal id Hid Hnone. unfold _load_annotations.
    rewrite (mapM_first_Raise (load_ref refer) ids KeyError); [done| |].
    + intros x err' _. unfold load_ref.
      destruct (Refs refer !! x) as [r|]; [|by intros [= <-]].
      destruct (Htotal (ref_ref_id r)) as [b ->]. done.
    + exists id. split; [done|]. unfold load_ref. by rewrite Hnone.
Qed.

(** The dataset has one entry per (sentence, sentence id) pair of the
    references, in the order of the reference ids: [__len__] is the sum
    over the references of the shorter of the two lists. *)
Theorem dataset_length_counts_sentences
    (refer : REFER) (ids : list Z) (self : ReferExpressionDataset)
    (anns : list annotation) (es : list entry) :
  _load_annotations refer ids = Ok anns ->
  tokenize self anns = Ok es ->
  len (with_entries self es) =
    sum_list (map (fun id =>
                     match Refs refer !! id with
                     | Some r => (length (sentences r)
                                  `min` length (sent_ids r))%nat
                     | None => 0%nat
                     end) ids) /\
  length anns = len (with_entries self es).
Proof.
  intros Hload Htok. unfold len. simpl.
  rewrite (mapM_Ok_length _ _ _ Htok).
  split; [|done]. clear Htok.
  apply load_annotations_inv in Hload as (per & HF & ->).
  induction HF as [|id l ids per Hl _ IH]; [done|].
  simpl. rewrite length_app, IH. f_equal.
  apply load_ref_Ok in Hl as (r & b & -> & _ & ->).
  apply length_annotations_of.
Qed.

(** Every loaded annotation comes from a reference of the id list: it
    carries that reference's image id and own ['ref_id'], the box fetched
    for that ['ref_id'], and a sentence paired with the sentence id at the
    same position. *)
Theorem loaded_annotation_provenance
    (refer : REFER) (ids : list Z) (anns : list annotation)
    (a : annotation) :
  _load_annotations refer ids = Ok anns ->
  a ∈ anns ->
  exists id r i s,
    id ∈ ids /\ Refs refer !! id = Some r /\
    a_image_id a = ref_image_id r /\ a_ref_id a = ref_ref_id r /\
    getRefBox refer (ref_ref_id r) = Ok (a_refBox a) /\
    sentences r !! i = Some s /\ a_caption a = raw s /\
    sent_ids r !! i = Some (a_sent_id a).
Proof.
  intros Hload Ha.
  apply load_annotations_inv in Hload as (per & HF & ->).
  apply elem_of_concat in Ha as (l & Hal & Hl).
  apply list_elem_of_lookup in Hl as [n Hn].
  destruct (Forall2_lookup_r _ _ _ _ _ HF Hn) as (id & Hid & Hload).
  apply load_ref_Ok in Hload as (r & b & Hr & Hb & ->).
  unfold annotations_of in Hal.
  apply list_elem_of_fmap in Hal as ([s sid] & -> & Hz).
  apply list_elem_of_lookup in Hz as [i Hi].
  apply lookup_zip_with_Some in Hi as (s' & sid' & [= <- <-] & Hs & Hsid).
  exists id, r, i, s. simpl.
  split; [by eapply list_elem_of_lookup_2|]. done.
Qed.

(** Loading a concatenation of id lists gives the concatenation of the
    loaded annotations: the entries keep the order of the reference
    ids. *)
Theorem load_annotations_app
    (refer : REFER) (ids1 ids2 : list Z) (anns1 anns2 : list annotation) :
  _load_annotations refer ids1 = Ok anns1 ->
  _load_annotations refer ids2 = Ok anns2 ->
  _load_annotations refer (ids1 ++ ids2) = Ok (anns1 ++ anns2).
Proof.
  unfold _load_annotations. intros H1 H2.
  apply bind_Ok_inv in H1 as (p1 & Hp1 & H1). injection H1 as <-.
  apply bind_Ok_inv in H2 as (p2 & Hp2 & H2). injection H2 as <-.
  rewrite (mapM_app_Ok _ _ _ _ _ Hp1 Hp2). simpl. by rewrite concat_app.
Qed.

(** * Further properties of the per-index fetch *)

Section FetchMore.
Implicit Types (self : ReferExpressionDataset) (e : entry) (m : mixed).

Lemma length_slice_to_any {A} (l : list A) c :
  length (slice_to l c) =
    if (0 <=? c)%Z then (Z.to_nat c `min` length l)%nat
    else (length l - Z.to_nat (- c))%nat.
Proof.
  unfold slice_to. destruct (0 <=? c)%Z; rewrite length_take; lia.
Qed.

(** The outcome of [dst[:c] = src], by the row counts alone. *)
Lemma assign_to_outcome {A} (dst src : list A) c :
  let n := length (slice_to dst c) in
  (length src = n \/ length src = 1%nat ->
   exists r, assign_to dst c src = Ok r) /\
  (length src <> n -> length src <> 1%nat ->
   assign_to dst c src = Raise ValueError).
Proof.
  intros n. unfold assign_to. fold n. split.
  - intros [H | H].
    + rewrite decide_True by done. by eexists.
    + destruct (decide (length src = n)); [by eexists|].
      destruct src as [|x [|y src]]; try done. by eexists.
  - intros H1 H2. rewrite decide_False by done.
    by destruct src as [|x [|y src]].
Qed.

Lemma fits_dec n k : {fits n k} + {~ fits n k}.
Proof.
  unfold fits. destruct (decide (k = n)); [by left; left|].
  destruct (decide (k = 1%nat)); [by left; right|]. right. tauto.
Qed.

(** [pack] returns exactly when each of its three assignments can be
    broadcast, and raises the shape error otherwise. *)
Lemma assign_to_fits {A} (dst src : list A) c :
  (fits (length (slice_to dst c)) (length src) ->
   exists r, assign_to dst c src = Ok r) /\
  (~ fits (length (slice_to dst c)) (length src) ->
   assign_to dst c src = Raise ValueError).
Proof.
  destruct (assign_to_outcome dst src c) as [H1 H2]. split; [exact H1|].
  intros Hn. apply H2; unfold fits in Hn; tauto.
Qed.

Lemma pack_outcome self e m :
  let n := length (slice_to (replicate (max_region_num self) tt)
                     (mix_num_boxes m)) in
  let ok :=
    fits n (length (slice_to (mix_boxes m) (mix_num_boxes m))) /\
    fits n (length (slice_to (mix_features m) (mix_num_boxes m))) /\
    fits n (length (mix_target m)) in
  (ok -> exists out, pack self e m = Ok out) /\
  (~ ok -> pack self e m = Raise ValueError).
Proof.
  intros n ok.
  assert (Hn : forall {A} (x : A),
             length (slice_to (replicate (max_region_num self) x)
                       (mix_num_boxes m)) = n).
  { intros A x. unfold n. by rewrite !length_slice_to_any, !length_replicate. }
  pose proof (assign_to_fits (zeros (max_region_num self) 5)
                (slice_to (mix_boxes m) (mix_num_boxes m)) (mix_num_boxes m))
    as Sb.
  pose proof (assign_to_fits (zeros (max_region_num self) 2048)
                (slice_to (mix_features m) (mix_num_boxes m))
                (mix_num_boxes m)) as Sf.
  pose proof (assign_to_fits (replicate (max_region_num self) [Fin 0])
                (mix_target m) (mix_num_boxes m)) as St.
  unfold zeros in Sb, Sf. rewrite Hn in Sb, Sf. rewrite Hn in St.
  unfold pack, zeros.
  set (Ab := assign_to (replicate _ (replicate 5 _)) _ _) in *.
  set (Af := assign_to (replicate _ (replicate 2048 _)) _ _) in *.
  set (At := assign_to (replicate _ [Fin 0]) _ _) in *.
  clearbody Ab Af At. destruct Sb as [Sb1 Sb2], Sf as [Sf1 Sf2], St as [St1 St2].
  split.
  - intros (Fb & Ff & Ft).
    destruct (Sb1 Fb) as [bp ->]. destruct (Sf1 Ff) as [fp ->].
    destruct (St1 Ft) as [t ->]. by eexists.
  - intros Hnot.
    destruct (fits_dec n (length (slice_to (mix_boxes m) (mix_num_boxes m))))
      as [Fb | Fb]; [|by rewrite (Sb2 Fb)].
    destruct (Sb1 Fb) as [bp ->].
    destruct (fits_dec n (length (slice_to (mix_features m) (mix_num_boxes m))))
      as [Ff | Ff]; [|by rewrite (Sf2 Ff)].
    destruct (Sf1 Ff) as [fp ->].
    destruct (fits_dec n (length (mix_target m))) as [Ft | Ft];
      [by destruct Hnot|].
    by rewrite (St2 Ft).
Qed.

Lemma index_Ok_elem {A} (l : list A) i x : Py.index l i = Ok x -> x ∈ l.
Proof.
  unfold Py.index. destruct (_ && _); [|done].
  destruct (l !! _) eqn:E; [|done]. intros [= <-].
  by eapply list_elem_of_lookup_2.
Qed.

End FetchMore.

(** The fetch indexes [entries] as Python does: an index outside
    [-len, len) raises [IndexError], and a negative index within it
    fetches the entry counted from the end. *)
Theorem getitem_index_wraps (self : ReferExpressionDataset) (index : Z) :
  let n := Z.of_nat (len self) in
  (index < - n \/ n <= index -> getitem self index = Raise IndexError) /\
  (- n <= index < 0 -> getitem self index = getitem self (n + index)).
Proof.
  intros n. unfold getitem, Py.index, len in *. fold n. split.
  - intros Hout. destruct (index <? 0)%Z eqn:E.
    + replace ((0 <=? n + index) && (n + index <? n))%Z with false; [done|].
      symmetry. apply andb_false_iff. rewrite Z.leb_gt, Z.ltb_ge.
      apply Z.ltb_lt in E. lia.
    + replace ((0 <=? index) && (index <? n))%Z with false; [done|].
      symmetry. apply andb_false_iff. rewrite Z.leb_gt, Z.ltb_ge.
      apply Z.ltb_ge in E. lia.
  - intros Hneg.
    rewrite (proj2 (Z.ltb_lt index 0)) by lia.
    rewrite (proj2 (Z.ltb_ge (n + index) 0)) by lia. done.
Qed.

(** Outside training mode the ground-truth store is never consulted: the
    fetch gives the same result over any ground-truth store. *)
Theorem eval_ignores_gt_store
    (self : ReferExpressionDataset) (gt : gmap Z regions) (index : Z) :
  split self <> "train"%string ->
  getitem (with_gt_reader self gt) index = getitem self index.
Proof.
  intros Hs. apply String.eqb_neq in Hs.
  unfold getitem. simpl. destruct (Py.index (entries self) index) as [e|];
    [|done].
  simpl. unfold merge. simpl. rewrite Hs.
  destruct (reader_get _ _) as [r|]; done.
Qed.

(** In evaluation mode, over a store whose valid count [d] lies within its
    rows, the fetch returns exactly when [d] is at most [max_region_num]
    (or [d] is 1, a single row being broadcast), and raises the shape
    error otherwise. *)
Theorem eval_fetch_returns_iff
    (self : ReferExpressionDataset) (index : Z) (e : entry) (r : regions) :
  training self = false ->
  Py.index (entries self) index = Ok e ->
  _image_features_reader self !! image_id e = Some r ->
  shape_ok r = true ->
  (returns self index <->
   (r_num_boxes r <= Z.of_nat (max_region_num self) \/ r_num_boxes r = 1)) /\
  (~ returns self index -> getitem self index = Raise ValueError).
Proof.
  intros Ht He Hr Hs. apply shape_ok_spec in Hs as (? & ? & ?).
  unfold returns.
  rewrite (getitem_pack _ _ _ _ He (merge_eval _ _ _ _ Ht Hr)).
  match goal with |- context [pack self e ?m0] => set (m := m0) end.
  destruct (pack_outcome self e m) as [Hok Hno].
  match type of Hok with ?P -> _ =>
    assert (Hcond : P <->
              (r_num_boxes r <= Z.of_nat (max_region_num self)
               \/ r_num_boxes r = 1)) end.
  { subst m. simpl. unfold iou, fits.
    rewrite !length_slice_to_any, !length_replicate, ?length_map,
      !length_slice_to_any.
    rewrite (proj2 (Z.leb_le 0 (r_num_boxes r))) by lia.
    rewrite (proj2 (Z.leb_le 0 (Z.min (r_num_boxes r) _))) by lia.
    rewrite !(Nat.min_l (Z.to_nat (r_num_boxes r)) (length _)) by lia.
    rewrite !(Nat.min_l (Z.to_nat (Z.min _ _)) _) by lia.
    lia. }
  split; [split|].
  - intros [out Hout].
    destruct (decide (r_num_boxes r <= Z.of_nat (max_region_num self)
                      \/ r_num_boxes r = 1)) as [|Hn]; [done|].
    rewrite Hno in Hout; [done|]. intros HP. by apply Hn, Hcond.
  - intros Hfit. by apply Hok, Hcond.
  - intros Hnot. apply Hno. intros Hfit. by apply Hnot, Hok.
Qed.

(** In training mode, over stores whose valid counts [d] and [g] lie
    within their rows, the fetch returns exactly when the ground-truth
    store has a valid region and [d + g - 1] fits [max_region_num], or
    the merged list has a single row, or there is no region at all and
    the capacity is at most 1; it raises the shape error otherwise. *)
Theorem train_fetch_returns_iff
    (self : ReferExpressionDataset) (index : Z) (e : entry)
    (r g : regions) :
  training self = true ->
  Py.index (entries self) index = Ok e ->
  _image_features_reader self !! image_id e = Some r ->
  _gt_image_features_reader self !! image_id e = Some g ->
  shape_ok r = true ->
  shape_ok g = true ->
  let d := r_num_boxes r in
  let n := r_num_boxes g in
  let R := Z.of_nat (max_region_num self) in
  (returns self index <->
   ((1 <= n /\ d + n - 1 <= R) \/
    d + Z.max (n - 1) 0 = 1 \/
    (d = 0 /\ n = 0 /\ R <= 1))) /\
  (~ returns self index -> getitem self index = Raise ValueError).
Proof.
  intros Ht He Hr Hg Hs Hsg d n R.
  apply shape_ok_spec in Hs as (? & ? & ?).
  apply shape_ok_spec in Hsg as (? & ? & ?).
  unfold returns.
  rewrite (getitem_pack _ _ _ _ He (merge_train _ _ _ _ _ Ht Hr Hg)).
  match goal with |- context [pack self e ?m0] => set (m := m0) end.
  destruct (pack_outcome self e m) as [Hok Hno].
  match type of Hok with ?P -> _ =>
    assert (Hcond : P <->
              ((1 <= n /\ d + n - 1 <= R) \/
               d + Z.max (n - 1) 0 = 1 \/
               (d = 0 /\ n = 0 /\ R <= 1))) end.
  { subst m. simpl. unfold iou, slice_1_to, fits.
    rewrite !length_slice_to_any, !length_replicate, ?length_map,
      ?length_app, ?length_drop, !length_slice_to_any.
    rewrite (proj2 (Z.leb_le 0 (r_num_boxes r))) by lia.
    rewrite (proj2 (Z.leb_le 0 (r_num_boxes g))) by lia.
    fold d n R.
    rewrite !(Nat.min_l (Z.to_nat (r_num_boxes r)) (length _)) by lia.
    rewrite !(Nat.min_l (Z.to_nat (r_num_boxes g)) (length _)) by lia.
    fold d n R.
    destruct (Z.le_gt_cases 0 (Z.min (d + n - 1) R)) as [Hc | Hc].
    - rewrite (proj2 (Z.leb_le 0 (Z.min (d + n - 1) R))) by lia.
      rewrite !(Nat.min_l (Z.to_nat (Z.min _ _)) _) by lia.
      lia.
    - rewrite (proj2 (Z.leb_gt 0 (Z.min (d + n - 1) R))) by lia.
      assert (d = 0 /\ n = 0) as [Hd0 Hn0] by lia.
      rewrite Hd0, Hn0. simpl. lia. }
  split; [split|].
  - intros [out Hout].
    destruct (decide ((1 <= n /\ d + n - 1 <= R) \/
                      d + Z.max (n - 1) 0 = 1 \/
                      (d = 0 /\ n = 0 /\ R <= 1))) as [|Hn]; [done|].
    rewrite Hno in Hout; [done|]. intros HP. by apply Hn, Hcond.
  - intros Hfit. by apply Hok, Hcond.
  - intros Hnot. apply Hno. intros Hfit. by apply Hnot, Hok.
Qed.

(** After [tokenize], every returned example carries token, mask and
    segment-id vectors of [max_seq_length] elements, a zero co-attention
    mask of [max_region_num] rows of [max_seq_length] entries, and the
    image id of one of the annotations. *)
Theorem fetched_sequences_have_fixed_length
    (self : ReferExpressionDataset) (anns : list annotation)
    (es : list entry) (index : Z) (out : example) :
  tokenize self anns = Ok es ->
  getitem (with_entries self es) index = Ok out ->
  length (ex_caption out) = _max_seq_length self /\
  length (ex_input_mask out) = _max_seq_length self /\
  length (ex_segment_ids out) = _max_seq_length self /\
  co_attention_mask out
    = replicate (max_region_num self)
        (replicate (_max_seq_length self) 0%Q) /\
  exists a, a ∈ anns /\ ex_image_id out = a_image_id a.
Proof.
  intros Htok Hget.
  apply getitem_inv in Hget as (e & m & He & _ & Hp). simpl in He.
  apply index_Ok_elem in He.
  apply pack_inv in Hp as (bp & fp & t & _ & _ & _ & ->). simpl.
  pose proof (mapM_Ok_Forall2 _ _ _ Htok) as HF.
  apply list_elem_of_lookup in He as [i Hi].
  destruct (Forall2_lookup_r _ _ _ _ _ HF Hi) as (a & Ha & Hae).
  pose proof (tokenize_entry_fields _ _ _ Hae) as (_ & _ & Hid & _).
  apply tokenize_entry_inv in Hae as (ids & _ & _ & -> & -> & ->).
  destruct (pack_tokens_length (_max_seq_length self) (_padding_index self) ids)
    as (L1 & L2 & L3).
  split; [done|]. split; [done|]. split; [done|]. split; [done|].
  exists a. split; [by eapply list_elem_of_lookup_2 | done].
Qed.

(** * The fetch over an open arithmetic *)

Section OpenArithmetic.
Implicit Types (ar : arith) (self : ReferExpressionDataset) (e : entry)
  (m : mixed) (out : example).

Lemma clip_with_Fin w : clip_with (Fin w) = Fin (clip w).
Proof. unfold clip_with, clip. simpl. by destruct (Qltb w 0). Qed.

(** Under exact arithmetic the open definitions are the exact ones. *)
Lemma overlap_with_exact a g : overlap_with exact a g = overlap a g.
Proof.
  unfold overlap_with, ua_with, inter_with, iw_with, ih_with, area_with.
  simpl. rewrite !clip_with_Fin. reflexivity.
Qed.

Lemma iou_with_exact anchors gt_boxes :
  iou_with exact anchors gt_boxes = iou anchors gt_boxes.
Proof.
  unfold iou_with, iou. apply map_ext. intros a. apply map_ext. intros g.
  apply overlap_with_exact.
Qed.

Lemma ref_box_with_exact rb : ref_box_with exact rb = ref_box_of rb.
Proof. by destruct rb as [[[x y] w] h]. Qed.

Lemma merge_with_exact self id rb :
  merge_with exact self id rb = merge self id rb.
Proof.
  unfold merge_with, merge.
  destruct (reader_get (_image_features_reader self) id) as [r|]; [|done].
  simpl. destruct (String.eqb (split self) "train").
  - destruct (reader_get (_gt_image_features_reader self) id) as [g|];
      [|done].
    simpl. by rewrite iou_with_exact.
  - by rewrite iou_with_exact.
Qed.

Lemma pack_with_exact self e m : pack_with exact self e m = pack self e m.
Proof.
  unfold pack_with, pack. simpl.
  assert (Hid : map (map (fun v : fnum => v)) (mix_target m) = mix_target m).
  { rewrite <- (map_id (mix_target m)) at 2. apply map_ext. intros row.
    apply map_id. }
  by rewrite Hid.
Qed.

Lemma getitem_with_exact self index :
  getitem_with exact self index = getitem self index.
Proof.
  unfold getitem_with, getitem.
  destruct (Py.index (entries self) index) as [e|]; [|done]. simpl.
  rewrite ref_box_with_exact, merge_with_exact.
  destruct (merge _ _ _) as [m|]; [|done]. simpl. apply pack_with_exact.
Qed.



End OpenArithmetic.


(** * [tokenize] for any integer [max_seq_length] *)

Section TokenizeInt.
Implicit Types (self : ReferExpressionDataset) (a : annotation) (e : entry)
  (L : Z).

Lemma pack_tokens_int_nonneg L pad ids :
  (0 <= L)%Z ->
  pack_tokens_int L pad ids = pack_tokens (Z.to_nat L) pad ids.
Proof.
  intros HL. unfold pack_tokens_int, pack_tokens.
  rewrite slice_to_take by done.
  destruct (decide (Z.of_nat (length (take (Z.to_nat L) ids)) < L)%Z);
    destruct (decide (length (take (Z.to_nat L) ids) < Z.to_nat L)%nat);
    try lia; [|done].
  by replace (Z.to_nat (L - Z.of_nat (length (take (Z.to_nat L) ids))))
    with (Z.to_nat L - length (take (Z.to_nat L) ids))%nat by lia.
Qed.

Lemma pack_tokens_int_neg L pad ids :
  (L < 0)%Z ->
  pack_tokens_int L pad ids =
    (slice_to ids L, replicate (length (slice_to ids L)) 1%Z,
     replicate (length (slice_to ids L)) 0%Z).
Proof.
  intros HL. unfold pack_tokens_int. by rewrite decide_False by lia.
Qed.

Lemma store_tokens_int_Ok L a tokens mask seg :
  Z.of_nat (length tokens) = L ->
  store_tokens_int L a (tokens, mask, seg) =
    Ok (Entry (a_caption a) (a_sent_id a) (a_image_id a) (a_refBox a)
          (a_ref_id a) tokens mask seg).
Proof.
  intros H. unfold store_tokens_int, assert_eq_int. by rewrite decide_True.
Qed.

Lemma store_tokens_int_Raise L a tokens mask seg :
  Z.of_nat (length tokens) <> L ->
  store_tokens_int L a (tokens, mask, seg) = Raise AssertionError.
Proof.
  intros H. unfold store_tokens_int, assert_eq_int. by rewrite decide_False.
Qed.

(** The outcome of one entry, by the sign of [max_seq_length]. *)
Lemma tokenize_entry_int_nonneg self L a ids :
  (0 <= L)%Z ->
  mapM (vocab_id (_vocab self)) (marked self a) = Ok ids ->
  exists e,
    tokenize_entry_int self L a = Ok e /\
    token e = take (Z.to_nat L) ids
              ++ replicate (Z.to_nat L - length ids) (_padding_index self) /\
    fixed_length (Z.to_nat L) e.
Proof.
  intros HL Hids. unfold tokenize_entry_int. fold (marked self a).
  rewrite Hids. simpl. rewrite pack_tokens_int_nonneg by done.
  pose proof (pack_tokens_length (Z.to_nat L) (_padding_index self) ids)
    as (L1 & L2 & L3).
  pose proof (pack_tokens_spec (Z.to_nat L) (_padding_index self) ids) as Hs.
  destruct (pack_tokens _ _ ids) as [[t im] s].
  simpl in L1, L2, L3. injection Hs as Ht _ _.
  rewrite store_tokens_int_Ok by lia. eexists. split; [done|].
  split; [exact Ht | done].
Qed.

Lemma tokenize_entry_int_neg self L a ids :
  (L < 0)%Z ->
  mapM (vocab_id (_vocab self)) (marked self a) = Ok ids ->
  tokenize_entry_int self L a = Raise AssertionError.
Proof.
  intros HL Hids. unfold tokenize_entry_int. fold (marked self a).
  rewrite Hids. simpl. rewrite pack_tokens_int_neg by done.
  apply store_tokens_int_Raise. lia.
Qed.

Lemma tokenize_entry_int_Raise self L a err :
  tokenize_entry_int self L a = Raise err ->
  (err = KeyError /\ _vocab self !! "[UNK]"%string = None /\
   exists w, w ∈ marked self a /\ _vocab self !! w = None) \/
  (err = AssertionError /\ (L < 0)%Z).
Proof.
  intros H.
  destruct (mapM (vocab_id (_vocab self)) (marked self a)) as [ids|e'] eqn:E.
  - right. destruct (Z.le_gt_cases 0 L) as [HL | HL].
    + destruct (tokenize_entry_int_nonneg self L a ids HL E) as (e & He & _).
      congruence.
    + rewrite (tokenize_entry_int_neg self L a ids HL E) in H.
      by injection H as <-.
  - left. unfold tokenize_entry_int in H. fold (marked self a) in H.
    rewrite E in H. simpl in H. injection H as ->.
    apply mapM_Raise_inv in E as (w & Hw & Hf).
    apply vocab_id_Raise in Hf as (-> & Hnone & Hunk). eauto.
Qed.

Lemma marked_ids_total self a :
  is_Some (_vocab self !! "[UNK]"%string) ->
  exists ids, mapM (vocab_id (_vocab self)) (marked self a) = Ok ids.
Proof. intros Hunk. apply mapM_total, vocab_id_total, Hunk. Qed.

Lemma mapM_ext_result {A B} (f g : A -> result B) l :
  (forall x, f x = g x) -> mapM f l = mapM g l.
Proof.
  intros Hfg. induction l as [|x l IH]; [done|].
  simpl. by rewrite Hfg, IH.
Qed.

(** For a natural [max_seq_length] these are the definitions above. *)
Lemma tokenize_int_nat self anns :
  tokenize_int self (Z.of_nat (_max_seq_length self)) anns
  = tokenize self anns.
Proof.
  unfold tokenize_int, tokenize. apply mapM_ext_result. intros a.
  unfold tokenize_entry_int, tokenize_entry.
  destruct (mapM _ _) as [ids|]; [|done]. simpl.
  rewrite pack_tokens_int_nonneg, Nat2Z.id by lia.
  destruct (pack_tokens _ _ ids) as [[t im] s].
  unfold store_tokens_int, store_tokens, assert_eq_int, assert_eq.
  destruct (decide (length t = _max_seq_length self)) as [Ht | Ht].
  - by rewrite decide_True by lia.
  - by rewrite decide_False by lia.
Qed.
End TokenizeInt.

(** C8. With the unknown-token id in the vocabulary: for a non-negative
    [max_seq_length], [tokenize] returns for every caption, whatever its
    length, token, mask and segment-id vectors of exactly
    [max_seq_length] elements (the ids cut to [max_seq_length], then padded
    up to it), and the construction returns these entries; a packed token
    length other than [max_seq_length], which a negative [max_seq_length]
    gives for every caption, raises the assertion error, and the
    construction raises it too. *)
Theorem tokenize_fixed_length_or_abort
    (self : ReferExpressionDataset) (L : Z) (anns : list annotation) :
  is_Some (_vocab self !! "[UNK]"%string) ->
  ((0 <= L)%Z ->
   exists es,
     tokenize_int self L anns = Ok es /\
     init_entries_int self L None anns = Ok es /\
     Forall2 (fun a e =>
                fixed_length (Z.to_nat L) e /\
                exists ids,
                  mapM (vocab_id (_vocab self)) (marked self a) = Ok ids /\
                  token e = take (Z.to_nat L) ids
                            ++ replicate (Z.to_nat L - length ids)
                                 (_padding_index self))
       anns es) /\
  (forall a ids,
     a ∈ anns ->
     mapM (vocab_id (_vocab self)) (marked self a) = Ok ids ->
     Z.of_nat (length (pack_tokens_int L (_padding_index self) ids).1.1) <> L ->
     tokenize_int self L anns = Raise AssertionError /\
     init_entries_int self L None anns = Raise AssertionError) /\
  ((L < 0)%Z -> anns <> [] ->
   tokenize_int self L anns = Raise AssertionError /\
   init_entries_int self L None anns = Raise AssertionError).
Proof.
  intros Hunk.
  assert (Hraise : forall a err,
            tokenize_entry_int self L a = Raise err -> err = AssertionError).
  { intros a err H.
    apply tokenize_entry_int_Raise in H as [(_ & Hnone & _) | [-> _]];
      [|done].
    destruct Hunk as [u Hu]. congruence. }
  assert (Hneg : (L < 0)%Z -> anns <> [] ->
            tokenize_int self L anns = Raise AssertionError).
  { intros HL Hne. destruct anns as [|a anns]; [done|].
    apply mapM_first_Raise; [intros; by eapply Hraise|].
    exists a. split; [by apply elem_of_cons; left|].
    destruct (marked_ids_total self a Hunk) as [ids Hids].
    by eapply tokenize_entry_int_neg. }
  split; [|split].
  - intros HL.
    assert (exists es, Forall2 (fun a e =>
              tokenize_entry_int self L a = Ok e /\
              fixed_length (Z.to_nat L) e /\
              exists ids,
                mapM (vocab_id (_vocab self)) (marked self a) = Ok ids /\
                token e = take (Z.to_nat L) ids
                          ++ replicate (Z.to_nat L - length ids)
                               (_padding_index self)) anns es)
      as [es Hes].
    { clear Hneg. induction anns as [|a anns [es IH]]; [by exists []|].
      destruct (marked_ids_total self a Hunk) as [ids Hids].
      destruct (tokenize_entry_int_nonneg self L a ids HL Hids)
        as (e & He & Htok & Hfix).
      exists (e :: es). constructor; [|done]. eauto. }
    exists es.
    assert (Htok : tokenize_int self L anns = Ok es).
    { apply mapM_Ok_of_Forall2. eapply Forall2_impl; [exact Hes|].
      by intros a e (? & _). }
    split; [done|]. split; [done|].
    eapply Forall2_impl; [exact Hes|]. by intros a e (_ & ? & ?).
  - intros a ids Ha Hids Hlen.
    assert (HL : (L < 0)%Z).
    { destruct (Z.le_gt_cases 0 L) as [HL | HL]; [|done]. exfalso.
      rewrite pack_tokens_int_nonneg in Hlen by done.
      destruct (pack_tokens_length (Z.to_nat L) (_padding_index self) ids)
        as (L1 & _). lia. }
    assert (Hne : anns <> []) by (intros ->; by apply elem_of_nil in Ha).
    split; by apply Hneg.
  - intros HL Hne. split; by apply Hneg.
Qed.


(** * Shape and far candidates of the target *)

(** In a returned example the target has [max_region_num] rows of exactly
    one entry each. *)
Theorem target_has_one_column
    (self : ReferExpressionDataset) (index : Z) (e : entry) (out : example) :
  Py.index (entries self) index = Ok e ->
  well_shaped self (image_id e) = true ->
  getitem self index = Ok out ->
  length (target out) = max_region_num self /\
  forall k row, target out !! k = Some row -> length row = 1%nat.
Proof.
  intros He Hws Hget.
  destruct (getitem_inv _ _ _ Hget) as (e' & m & He' & Hm & Hp).
  rewrite He in He'. injection He' as <-.
  destruct (pack_spec _ _ _ _ Hm Hws Hp) as (_ & (_ & _ & Lt) & Hlt & Hge).
  split; [done|]. intros k row Hrow.
  destruct (decide (k < Z.to_nat (mix_num_boxes m))%nat) as [Hk | Hk].
  - destruct (Hlt k Hk) as (_ & _ & Ht). rewrite Ht in Hrow.
    rewrite (merge_target _ _ _ _ Hm), list_lookup_fmap in Hrow.
    destruct (mix_boxes_ori m !! k) as [b|]; [|done].
    by injection Hrow as <-.
  - destruct (Hge k) as (_ & _ & Ht); [lia|]. rewrite Ht in Hrow.
    by apply lookup_replicate_1 in Hrow as [-> _].
Qed.


(** * Instances of the further properties *)


Lemma padding_trails_the_tokens_witness :
  exists ids,
    mapM (vocab_id (_vocab Scenario.B)) (marked Scenario.B Scenario.red_car)
      = Ok ids /\
    length ids = 5%nat /\
    token Scenario.packed_entry
      = ids ++ replicate (_max_seq_length Scenario.B - 5)
                 (_padding_index Scenario.B) /\
    take 5 (token Scenario.packed_entry) = ids /\
    drop 5 (token Scenario.packed_entry)
      = replicate (_max_seq_length Scenario.B - 5)
          (_padding_index Scenario.B).
Proof.
  apply (padding_trails_the_tokens Scenario.B Scenario.red_car
           Scenario.packed_entry);
    [by_computation | simpl; lia].
Defined.

Lemma long_caption_is_truncated_witness :
  exists ids,
    mapM (vocab_id (_vocab Sample.short_length))
      (marked Sample.short_length Scenario.red_car) = Ok ids /\
    token Sample.cut_entry = take 4 ids /\
    input_mask Sample.cut_entry = replicate 4 1%Z /\
    segment_ids Sample.cut_entry = replicate 4 0%Z.
Proof.
  apply (long_caption_is_truncated Sample.short_length Scenario.red_car
           Sample.cut_entry);
    [by_computation | simpl; lia].
Defined.

Lemma markers_frame_the_sequence_witness :
  exists cls sep,
    vocab_id (_vocab Scenario.B) "[CLS]" = Ok cls /\
    vocab_id (_vocab Scenario.B) "[SEP]" = Ok sep /\
    token Scenario.packed_entry !! 0%nat = Some cls /\
    token Scenario.packed_entry !! 4%nat = Some sep.
Proof.
  apply (markers_frame_the_sequence Scenario.B Scenario.red_car
           Scenario.packed_entry);
    [by_computation | simpl; lia].
Defined.

Lemma tokenize_keeps_annotations_witness :
  Forall2 (fun a e =>
             caption e = a_caption a /\ sent_id e = a_sent_id a /\
             image_id e = a_image_id a /\ refBox e = a_refBox a /\
             ref_id e = a_ref_id a)
    (Sample.loaded [1; 2]%Z)
    (Sample.tokenized Scenario.B (Sample.loaded [1; 2]%Z)).
Proof.
  apply (tokenize_keeps_annotations Scenario.B). by_computation.
Defined.

Lemma load_annotations_returns_iff_witness :
  exists anns, _load_annotations Sample.refs [1; 2]%Z = Ok anns.
Proof.
  apply (proj1 (load_annotations_returns_iff Sample.refs [1; 2]%Z)).
  repeat constructor.
  - eexists. eexists. split; reflexivity.
  - eexists. eexists. split; reflexivity.
Defined.

Lemma dataset_length_counts_sentences_witness :
  len (with_entries Scenario.B
         (Sample.tokenized Scenario.B (Sample.loaded [1; 2]%Z))) = 3%nat.
Proof.
  destruct (dataset_length_counts_sentences Sample.refs [1; 2]%Z Scenario.B
              (Sample.loaded [1; 2]%Z)
              (Sample.tokenized Scenario.B (Sample.loaded [1; 2]%Z)))
    as [Hlen _]; [by_computation | by_computation |].
  rewrite Hlen. reflexivity.
Defined.

Lemma loaded_annotation_provenance_witness :
  exists id r i s,
    id ∈ [1; 2]%Z /\ Refs Sample.refs !! id = Some r /\
    7%Z = ref_image_id r /\ 1%Z = ref_ref_id r /\
    getRefBox Sample.refs (ref_ref_id r) = Ok (10, 10, 5, 5)%Q /\
    sentences r !! i = Some s /\ "the car"%string = raw s /\
    sent_ids r !! i = Some 11%Z.
Proof.
  apply (loaded_annotation_provenance Sample.refs [1; 2]%Z
           (Sample.loaded [1; 2]%Z)
           (Annotation "the car" 11 7 (10, 10, 5, 5)%Q 1)).
  - by_computation.
  - apply elem_of_cons. right. apply elem_of_cons. left. reflexivity.
Defined.

Lemma load_annotations_app_witness :
  _load_annotations Sample.refs ([1] ++ [2])%Z
  = Ok (Sample.loaded [1]%Z ++ Sample.loaded [2]%Z).
Proof.
  apply (load_annotations_app Sample.refs); by_computation.
Defined.

Lemma getitem_index_wraps_witness :
  getitem Scenario.small_train (-1) = getitem Scenario.small_train (1 + -1).
Proof.
  apply (proj2 (getitem_index_wraps Scenario.small_train (-1))).
  vm_compute. split; congruence.
Defined.

Lemma eval_ignores_gt_store_witness :
  getitem (with_gt_reader Scenario.loose_eval ∅) 0
  = getitem Scenario.loose_eval 0.
Proof.
  apply (eval_ignores_gt_store Scenario.loose_eval ∅ 0). discriminate.
Defined.

Lemma eval_fetch_returns_iff_witness : returns Sample.eval_fits 0.
Proof.
  apply (proj1 (eval_fetch_returns_iff Sample.eval_fits 0
                  (Scenario.the_entry Sample.eval_fits)
                  (Scenario.store_of [Scenario.gold; Scenario.far] 2)
                  eq_refl eq_refl eq_refl eq_refl)).
  left. simpl. lia.
Defined.

Lemma train_fetch_returns_iff_witness : returns Scenario.small_train 0.
Proof.
  apply (proj1 (train_fetch_returns_iff Scenario.small_train 0
                  (Scenario.the_entry Scenario.small_train)
                  (Scenario.store_of [Scenario.tight; Scenario.loose] 2)
                  (Scenario.store_of [Scenario.gold; Scenario.far] 2)
                  eq_refl eq_refl eq_refl eq_refl eq_refl eq_refl)).
  left. simpl. lia.
Defined.

Lemma fetched_sequences_have_fixed_length_witness :
  length (ex_caption (Scenario.fetched Sample.rebuilt)) = 20%nat /\
  length (ex_input_mask (Scenario.fetched Sample.rebuilt)) = 20%nat /\
  length (ex_segment_ids (Scenario.fetched Sample.rebuilt)) = 20%nat /\
  co_attention_mask (Scenario.fetched Sample.rebuilt)
    = replicate 4 (replicate 20 0%Q) /\
  exists a, a ∈ [Scenario.red_car] /\
    ex_image_id (Scenario.fetched Sample.rebuilt) = a_image_id a.
Proof.
  apply (fetched_sequences_have_fixed_length Scenario.small_train
           [Scenario.red_car]
           (Sample.tokenized Scenario.small_train [Scenario.red_car]) 0);
    by_computation.
Defined.

(** ** The IEEE instance on two samples *)

(** In float32/float64 arithmetic a training candidate with the corners of
    the target box gets a label above 1: nothing clips the computed IoU. *)
Lemma float_label_above_one :
  getitem_with IEEE.numpy FloatSample.same_corners 0
    = Ok (FloatSample.fetched_with IEEE.numpy FloatSample.same_corners) /\
  image_mask (FloatSample.fetched_with IEEE.numpy FloatSample.same_corners)
    !! 0%nat = Some 1%Q /\
  target (FloatSample.fetched_with IEEE.numpy FloatSample.same_corners)
    !! 0%nat = Some [Fin (8388609 # 8388608)].
Proof. repeat split; by_computation. Qed.

(** The threshold is applied to the computed IoU: a candidate whose exact
    IoU is 1/2 is kept under exact arithmetic and zeroed in
    float32/float64 arithmetic, where the computed IoU falls below 0.5. *)
Lemma float_threshold_on_computed_iou :
  target (FloatSample.fetched_with exact FloatSample.half_covered) !! 0%nat
    = Some [Fin (41269158 # 82538316)] /\
  overlap_with IEEE.numpy (Box 0 0 8000 5157)
    (ref_box_with IEEE.numpy (0, 0, 16001, 5157)%Q)
    = Fin (9007199036486017 # 18014398509481984) /\
  target (FloatSample.fetched_with IEEE.numpy FloatSample.half_covered)
    !! 0%nat = Some [Fin 0].
Proof. repeat split; by_computation. Qed.


Lemma tokenize_fixed_length_or_abort_witness :
  (exists es,
     tokenize_int Scenario.B 20 [Scenario.red_car] = Ok es /\
     init_entries_int Scenario.B 20 None [Scenario.red_car] = Ok es /\
     Forall2 (fun a e =>
                fixed_length (Z.to_nat 20) e /\
                exists ids,
                  mapM (vocab_id (_vocab Scenario.B)) (marked Scenario.B a)
                    = Ok ids /\
                  token e = take (Z.to_nat 20) ids
                            ++ replicate (Z.to_nat 20 - length ids)
                                 (_padding_index Scenario.B))
       [Scenario.red_car] es) /\
  (tokenize_int Scenario.B (-1) [Scenario.red_car] = Raise AssertionError /\
   init_entries_int Scenario.B (-1) None [Scenario.red_car]
     = Raise AssertionError).
Proof.
  split.
  - apply (proj1 (tokenize_fixed_length_or_abort Scenario.B 20
                    [Scenario.red_car] ltac:(by eexists))).
    lia.
  - apply (proj1 (proj2 (tokenize_fixed_length_or_abort Scenario.B (-1)
                           [Scenario.red_car] ltac:(by eexists)))
             Scenario.red_car [101; 1037; 2417; 100; 102]%Z).
    + apply list_elem_of_singleton. reflexivity.
    + reflexivity.
    + vm_compute. lia.
Defined.


(** With [max_seq_length = -1] the slice drops the last id and the length
    check fails on the four that remain. *)
Lemma negative_length_aborts :
  pack_tokens_int (-1) 0 [101; 1037; 2417; 100; 102]%Z
    = ([101; 1037; 2417; 100]%Z, [1; 1; 1; 1]%Z, [0; 0; 0; 0]%Z) /\
  tokenize_entry_int Scenario.B (-1) Scenario.red_car = Raise AssertionError.
Proof. split; by_computation. Qed.

Lemma target_has_one_column_witness :
  length (target (Scenario.fetched Scenario.small_train)) = 4%nat /\
  forall k row,
    target (Scenario.fetched Scenario.small_train) !! k = Some row ->
    length row = 1%nat.
Proof.
  apply (target_has_one_column Scenario.small_train 0
           (Scenario.the_entry Scenario.small_train));
    by_computation.
Defined.

